(** * Railway ticket reservation: the seat table, [check_ticket] and [book_ticket]

    A shallow embedding of [tools.py] (the two database operations), of
    [server.py] (the two tools wrapping them) and of the part of the pymysql
    connection they use ([db.py]), followed by the properties of the
    reservation store.

    The program is sequential Python talking to a MySQL table [t_seat].
    It is modelled as a state-and-exception monad over a [world] holding the
    committed rows of [t_seat], the rows as the open connection sees them
    (its uncommitted writes included) and the schedule of driver failures
    still to come. *)

From Stdlib Require Import List ZArith String Bool Lia DecimalString.
Import ListNotations.

Local Open Scope string_scope.
Local Open Scope Z_scope.

(** ** Data model *)

(** A row of [t_seat].  [seat_status] is the integer column the queries
    compare with 0 and set to 1. *)
Record seat : Type := mkSeat {
  id : Z;
  start_station : string;
  end_station : string;
  seat_status : Z
}.

Definition AVAILABLE : Z := 0.
Definition BOOKED : Z := 1.

(** Exceptions of the database driver; [str_exn] is Python's [str(e)]. *)
Inductive exn : Type :=
| OperationalError (msg : string)
| ProgrammingError (msg : string)
| InterfaceError (msg : string).

Definition str_exn (e : exn) : string :=
  match e with
  | OperationalError msg => msg
  | ProgrammingError msg => msg
  | InterfaceError msg => msg
  end.

(** [str(n)] for a Python integer, as the f-strings of the source format it. *)
Definition str_int (n : Z) : string := NilEmpty.string_of_int (Z.to_int n).

(** The state the program runs against.
    - [t_seat]: the committed rows, in the order the engine scans them;
    - [session]: the rows as seen by the connection of the call in progress
      ([autocommit=False]: its writes stay here until [commit]);
    - [faults]: for each coming call into the driver, whether it raises
      (connectivity, deadlock, lock-wait timeout, ...).  An exhausted
      schedule means no further failure. *)
Record world : Type := mkWorld {
  t_seat : list seat;
  session : list seat;
  faults : list (option exn)
}.

(** ** Python control flow: return, raise, try/except, try/finally *)

Inductive outcome (A : Type) : Type :=
| Returns (a : A)
| Raises (e : exn).
Arguments Returns {A} a.
Arguments Raises {A} e.

Definition DB (A : Type) : Type := world -> outcome A * world.

Definition ret {A} (a : A) : DB A := fun w => (Returns a, w).

Definition raise {A} (e : exn) : DB A := fun w => (Raises e, w).

Definition bind {A B} (m : DB A) (k : A -> DB B) : DB B :=
  fun w =>
    match m w with
    | (Returns a, w1) => k a w1
    | (Raises e, w1) => (Raises e, w1)
    end.

(** [try: body / except Exception as e: handler e].  An exception raised by
    the handler itself is not caught. *)
Definition try_except {A} (body : DB A) (handler : exn -> DB A) : DB A :=
  fun w =>
    match body w with
    | (Returns a, w1) => (Returns a, w1)
    | (Raises e, w1) => handler e w1
    end.

(** [try: body / finally: fin].  [fin] runs on every exit of [body]; when
    [fin] raises, its exception replaces the pending result. *)
Definition try_finally {A} (body : DB A) (fin : DB unit) : DB A :=
  fun w =>
    match body w with
    | (r, w1) =>
        match fin w1 with
        | (Returns _, w2) => (r, w2)
        | (Raises e, w2) => (Raises e, w2)
        end
    end.

Declare Scope db_scope.
Delimit Scope db_scope with db.
Notation "x <- m ;; k" := (bind m (fun x => k))
  (at level 100, m at next level, right associativity) : db_scope.
Notation "m ;; k" := (bind m (fun _ => k))
  (at level 100, right associativity) : db_scope.
Local Open Scope db_scope.

(** ** The pymysql connection ([db.py] and the calls made on it) *)

(** Every call that reaches the server consumes one entry of the failure
    schedule and raises when that entry says so, before having any effect. *)
Definition driver_call : DB unit :=
  fun w =>
    match faults w with
    | [] => (Returns tt, w)
    | None :: fs => (Returns tt, mkWorld (t_seat w) (session w) fs)
    | Some e :: fs => (Raises e, mkWorld (t_seat w) (session w) fs)
    end.

Definition put_session (rows : list seat) : DB unit :=
  fun w => (Returns tt, mkWorld (t_seat w) rows (faults w)).

Definition get_session : DB (list seat) :=
  fun w => (Returns (session w), w).

Definition get_committed : DB (list seat) :=
  fun w => (Returns (t_seat w), w).

Definition put_committed (rows : list seat) : DB unit :=
  fun w => (Returns tt, mkWorld rows (session w) (faults w)).

(** [pymysql.connect(..., autocommit=False)]: a fresh connection sees the
    committed rows. *)
Definition get_db_connection : DB unit :=
  driver_call ;;
  rows <- get_committed ;;
  put_session rows.

(** [conn.commit()]: the connection's writes become the committed rows. *)
Definition commit : DB unit :=
  driver_call ;;
  rows <- get_session ;;
  put_committed rows.

(** [conn.rollback()]: the connection's uncommitted writes are dropped. *)
Definition rollback : DB unit :=
  driver_call ;;
  rows <- get_committed ;;
  put_session rows.

(** [conn.close()]: uncommitted work is lost.  pymysql writes its quit
    command inside [try: ... except Exception: pass], so a failure of that
    write stays inside [close]; its only own error, on a connection closed
    before, cannot occur, each connection being closed once. *)
Definition close : DB unit :=
  rows <- get_committed ;;
  put_session rows ;;
  try_except driver_call (fun _ => ret tt).

(** ** The three SQL statements *)

(** Modelled from the spec: the schema of [t_seat] (and with it the
    collation of the station columns) is not in the repository; section 3 of
    the specification says a route is matched exactly and case-sensitively,
    so the comparison of [start_station=%s] is byte equality. *)
Definition station_eqb (a b : string) : bool := String.eqb a b.

(** [WHERE seat_status=0 AND start_station=%s AND end_station=%s] *)
Definition where_available (start_ end_ : string) (r : seat) : bool :=
  (seat_status r =? 0)
  && station_eqb (start_station r) start_
  && station_eqb (end_station r) end_.

(** [SELECT COUNT( * ) AS available_seats FROM t_seat WHERE ...]: a result
    set of exactly one row. *)
Definition execute_count (start_ end_ : string) : DB (list Z) :=
  driver_call ;;
  rows <- get_session ;;
  ret [Z.of_nat (List.length (filter (where_available start_ end_) rows))].

(** [cursor.fetchone()] *)
Definition fetchone {A} (result_set : list A) : option A := hd_error result_set.

(** The server's error 1064 as [str(e)] shows it: [near] is the text at which
    the parser stopped, [line] its line in the statement.  The wording is the
    server's; the results below do not depend on it. *)
Definition double_quote : string := String (Ascii.ascii_of_nat 34) EmptyString.

Definition syntax_error (near : string) (line : Z) : exn :=
  ProgrammingError
    ("(1064, " ++ double_quote
     ++ "You have an error in your SQL syntax; check the manual that corresponds to your MySQL server version for the right syntax to use near '"
     ++ near ++ "' at line " ++ str_int line ++ double_quote ++ ")").

(** The largest count a [LIMIT] takes. *)
Definition LIMIT_MAX : Z := 2 ^ 64 - 1.

(** [SELECT id FROM t_seat WHERE ... LIMIT %s FOR UPDATE] followed by
    [cursor.fetchall()].  MySQL refuses a negative [LIMIT] and one above
    [LIMIT_MAX].  No table holds more than [LIMIT_MAX] rows; the test on the
    size of the table keeps apart the longer lists that the type of the
    model allows, on which nothing is refused for being too large. *)
Definition execute_select_for_update (start_ end_ : string) (num_seats : Z)
  : DB (list seat) :=
  driver_call ;;
  rows <- get_session ;;
  if (num_seats <? 0)
     || ((LIMIT_MAX <? num_seats) && (Z.of_nat (List.length rows) <=? LIMIT_MAX))
  then raise (syntax_error (str_int num_seats ++ " FOR UPDATE\n                ") 7)
  else
    ret (firstn (Z.to_nat num_seats) (filter (where_available start_ end_) rows)).

Definition set_booked (r : seat) : seat :=
  mkSeat (id r) (start_station r) (end_station r) 1.

Definition id_in (ids : list Z) (r : seat) : bool :=
  existsb (Z.eqb (id r)) ids.

(** [UPDATE t_seat SET seat_status=1 WHERE id IN (ids)]: every row whose id is
    listed is set to 1.  MySQL refuses the empty list [IN ()]. *)
Definition update_booked (seat_ids : list Z) (rows : list seat) : list seat :=
  map (fun r => if id_in seat_ids r then set_booked r else r) rows.

Definition execute_update (seat_ids : list Z) : DB unit :=
  driver_call ;;
  match seat_ids with
  | [] => raise (syntax_error ")\n            " 4)
  | _ =>
      rows <- get_session ;;
      put_session (update_booked seat_ids rows)
  end.

(** ** tools.py *)

Definition check_ticket (start_station end_station : string) : DB Z :=
  get_db_connection ;;
  try_finally
    (rows <- execute_count start_station end_station ;;
     let result := fetchone rows in
     ret (match result with Some available_seats => available_seats | None => 0 end))
    close.

Definition book_ticket (start_station end_station : string) (num_seats : Z)
  : DB string :=
  get_db_connection ;;
  try_finally
    (try_except
       (seats <- execute_select_for_update start_station end_station num_seats ;;
        if Z.of_nat (List.length seats) <? num_seats then
          ret ("余票不足，当前可用 " ++ str_int (Z.of_nat (List.length seats)) ++ " 张票")
        else
          let seat_ids := map id seats in
          execute_update seat_ids ;;
          commit ;;
          ret ("订票成功，扣减 " ++ str_int num_seats ++ " 张票"))
       (fun e =>
          rollback ;;
          ret ("订票失败: " ++ str_exn e)))
    close.

(** ** server.py *)

Record check_reply : Type := mkCheckReply {
  check_status : string;
  check_message : string;
  remaining : option Z
}.

Record book_reply : Type := mkBookReply {
  status : string;
  message : string;
  booked : Z
}.

Definition check_ticket_tool (start_station end_station : string)
  : DB check_reply :=
  try_except
    (remaining <- check_ticket start_station end_station ;;
     ret (mkCheckReply "success" "查询成功" (Some remaining)))
    (fun e => ret (mkCheckReply "fail" (str_exn e) None)).

(** [check_ticket] returns an [int], so the source's [remaining is None]
    branch is never taken and has no counterpart here. *)
Definition book_ticket_tool (start_station end_station : string) (num_seats : Z)
  : DB book_reply :=
  try_except
    (remaining <- check_ticket start_station end_station ;;
     if num_seats >? remaining then
       ret (mkBookReply "fail" ("余票不足，仅剩 " ++ str_int remaining ++ " 张") 0)
     else
       book_ticket start_station end_station num_seats ;;
       ret (mkBookReply "success" ("订票成功，扣减 " ++ str_int num_seats ++ " 张票") num_seats))
    (fun e => ret (mkBookReply "fail" (str_exn e) 0)).

(** A small table to try the definitions on. *)
Definition demo_table : list seat :=
  [ mkSeat 1 "Beijing" "Shanghai" 0;
    mkSeat 2 "Beijing" "Shanghai" 1;
    mkSeat 3 "Beijing" "Shanghai" 0;
    mkSeat 4 "Shanghai" "Beijing" 0;
    mkSeat 5 "Beijing" "Shanghai" 0 ].

Definition fresh (rows : list seat) (fs : list (option exn)) : world :=
  mkWorld rows rows fs.

(** Driver errors used in the examples. *)
Definition deadlock : exn :=
  OperationalError "(1213, 'Deadlock found when trying to get lock; try restarting transaction')".

Definition connection_refused : exn :=
  OperationalError "(2003, 'Can not connect to MySQL server')".

(** ** Vocabulary of the specification *)

(** A seat is on the route when both stations are the requested ones. *)
Definition on_route (start_ end_ : string) (r : seat) : Prop :=
  start_station r = start_ /\ end_station r = end_.

(** An AVAILABLE seat of the route. *)
Definition available_on (start_ end_ : string) (r : seat) : Prop :=
  seat_status r = AVAILABLE /\ on_route start_ end_ r.

Definition available_on_dec (start_ end_ : string) (r : seat)
  : {available_on start_ end_ r} + {~ available_on start_ end_ r}.
Proof.
  unfold available_on, on_route, AVAILABLE.
  destruct (Z.eq_dec (seat_status r) 0);
    destruct (string_dec (start_station r) start_);
    destruct (string_dec (end_station r) end_);
    solve [ left; auto | right; intuition congruence ].
Defined.

(** The "remaining" quantity of a route: how many of its seats are
    AVAILABLE. *)
Fixpoint available (start_ end_ : string) (rows : list seat) : Z :=
  match rows with
  | [] => 0
  | r :: rows' =>
      (if available_on_dec start_ end_ r then 1 else 0) + available start_ end_ rows'
  end.

(** Booking the first [n] rows that satisfy [p], in scan order. *)
Fixpoint book_first (p : seat -> bool) (n : nat) (rows : list seat) : list seat :=
  match rows, n with
  | [], _ => []
  | _ :: _, O => rows
  | r :: rows', S n' =>
      if p r then set_booked r :: book_first p n' rows'
      else r :: book_first p n rows'
  end.

(** What one operation may do to one seat: nothing, or book it. *)
Definition seat_step (r r' : seat) : Prop :=
  id r' = id r /\
  start_station r' = start_station r /\
  end_station r' = end_station r /\
  (seat_status r' = seat_status r \/
   (seat_status r = AVAILABLE /\ seat_status r' = BOOKED)).

(** What a booking on a route may do to one seat: nothing, or book it when
    it was an AVAILABLE seat of that route. *)
Definition booked_or_kept (start_ end_ : string) (r r' : seat) : Prop :=
  r' = r \/ (available_on start_ end_ r /\ r' = set_booked r).

(** Number of positions at which the status differs. *)
Fixpoint status_changes (rows rows' : list seat) : Z :=
  match rows, rows' with
  | r :: t, r' :: t' =>
      (if seat_status r =? seat_status r' then 0 else 1) + status_changes t t'
  | _, _ => 0
  end.

(** The entry points of the store, and a sequence of calls served one after
    the other. *)
Inductive call : Type :=
| Check_ticket (start_ end_ : string)
| Book_ticket (start_ end_ : string) (num_seats : Z)
| Check_ticket_tool (start_ end_ : string)
| Book_ticket_tool (start_ end_ : string) (num_seats : Z).

Definition exec (c : call) (w : world) : world :=
  match c with
  | Check_ticket s e => snd (check_ticket s e w)
  | Book_ticket s e n => snd (book_ticket s e n w)
  | Check_ticket_tool s e => snd (check_ticket_tool s e w)
  | Book_ticket_tool s e n => snd (book_ticket_tool s e n w)
  end.

Definition exec_all (cs : list call) (w : world) : world :=
  fold_left (fun w c => exec c w) cs w.

(** Bookings served one after the other on one route: the seats reported as
    booked by [book_ticket] (those of the calls that return its success
    message), and the final state. *)
Definition success_message (num_seats : Z) : string :=
  "订票成功，扣减 " ++ str_int num_seats ++ " 张票".

Definition booked_by (r : outcome string) (num_seats : Z) : Z :=
  match r with
  | Returns msg => if String.eqb msg (success_message num_seats) then num_seats else 0
  | Raises _ => 0
  end.

Fixpoint serial_bookings (start_ end_ : string) (counts : list Z) (w : world)
  : Z * world :=
  match counts with
  | [] => (0, w)
  | n :: counts' =>
      let (r, w1) := book_ticket start_ end_ n w in
      let (total, w2) := serial_bookings start_ end_ counts' w1 in
      (booked_by r n + total, w2)
  end.

(** ** Two calls of [book_ticket_tool] in flight

    [book_ticket_tool] makes two transactions, each on a connection of its
    own: the availability query of [check_ticket], then the booking of
    [book_ticket].  The two definitions below are the tool cut between them
    ([book_ticket_tool_two_steps] puts them back together); between the two
    another call can run a transaction. *)

(** Up to the end of [check_ticket]: the count, or the reply of the [except]
    clause when the query raised. *)
Definition book_ticket_tool_check (start_station end_station : string) (w : world)
  : (Z + book_reply) * world :=
  match check_ticket start_station end_station w with
  | (Returns remaining, w1) => (inl remaining, w1)
  | (Raises e, w1) => (inr (mkBookReply "fail" (str_exn e) 0), w1)
  end.

(** From the comparison with [remaining] to the reply. *)
Definition book_ticket_tool_book (start_station end_station : string) (num_seats : Z)
  (checked : Z + book_reply) : DB book_reply :=
  match checked with
  | inl remaining =>
      try_except
        (if num_seats >? remaining then
           ret (mkBookReply "fail" ("余票不足，仅剩 " ++ str_int remaining ++ " 张") 0)
         else
           book_ticket start_station end_station num_seats ;;
           ret (mkBookReply "success"
                  ("订票成功，扣减 " ++ str_int num_seats ++ " 张票") num_seats))
        (fun e => ret (mkBookReply "fail" (str_exn e) 0))
  | inr reply => ret reply
  end.

(** Two calls on one route, with both availability queries answered before
    either booking starts: query of the first, query of the second, booking
    of the first, booking of the second. *)
Definition two_calls_interleaved (start_station end_station : string)
  (num_seats1 num_seats2 : Z) (w : world)
  : outcome book_reply * outcome book_reply * world :=
  let (checked1, w1) := book_ticket_tool_check start_station end_station w in
  let (checked2, w2) := book_ticket_tool_check start_station end_station w1 in
  let (reply1, w3) := book_ticket_tool_book start_station end_station num_seats1 checked1 w2 in
  let (reply2, w4) := book_ticket_tool_book start_station end_station num_seats2 checked2 w3 in
  (reply1, reply2, w4).

(** ** client.py *)

(** A Python [str] is a sequence of code points; [u] reads one from a UTF-8
    literal, so that the literals below are those of the source. *)
Definition pystr : Type := list N.

Fixpoint utf8_decode (s : string) (pending : nat) (acc : N) : pystr :=
  match s with
  | EmptyString => []
  | String c s' =>
      let b := Ascii.N_of_ascii c in
      match pending with
      | O =>
          if (b <? 128)%N then b :: utf8_decode s' 0 0%N
          else if (b <? 224)%N then utf8_decode s' 1 (b - 192)%N
          else if (b <? 240)%N then utf8_decode s' 2 (b - 224)%N
          else utf8_decode s' 3 (b - 240)%N
      | S O => (acc * 64 + (b - 128))%N :: utf8_decode s' 0 0%N
      | S k => utf8_decode s' k (acc * 64 + (b - 128))%N
      end
  end.

Definition u (s : string) : pystr := utf8_decode s 0 0%N.

Fixpoint str_eqb (a b : pystr) : bool :=
  match a, b with
  | [], [] => true
  | x :: a', y :: b' => (x =? y)%N && str_eqb a' b'
  | _, _ => false
  end.

Definition pystr_eq_dec : forall a b : pystr, {a = b} + {a <> b} :=
  list_eq_dec N.eq_dec.

(** [needle in haystack] for two [str]. *)
Fixpoint starts_with (needle haystack : pystr) : bool :=
  match needle, haystack with
  | [], _ => true
  | _ :: _, [] => false
  | x :: needle', y :: haystack' => (x =? y)%N && starts_with needle' haystack'
  end.

Fixpoint contains (needle haystack : pystr) : bool :=
  starts_with needle haystack
  || match haystack with
     | [] => false
     | _ :: haystack' => contains needle haystack'
     end.

(** The exceptions the client code can meet. *)
Inductive pyerror : Type :=
| ValueError
| KeyError
| IndexError
| EOFError
| RuntimeError
| OtherError.

Inductive pyresult (A : Type) : Type :=
| Ok (a : A)
| Err (e : pyerror).
Arguments Ok {A} a.
Arguments Err {A} e.

(** What the code uses of the Python runtime and of the [regex] module, left
    open: the Unicode tables behind [\d], [lower], [strip] and [isdigit], the
    conversions [int] and [float], and the values a [Dict[str, Any]] can
    hold.  The results hold for every runtime. *)
Class PyRuntime : Type := {
  regex_digit : N -> bool;
  int_of_str : pystr -> option Z;
  str_lower : pystr -> pystr;
  str_strip : pystr -> pystr;
  str_isdigit : pystr -> bool;
  value : Type;
  vnone : value;
  vstr : pystr -> value;
  vint : Z -> value;
  is_none : value -> bool;
  truthy : value -> bool;
  py_int : value -> pyresult Z;
  py_float : value -> pyresult value
}.

(** [re.search(r'(\d+)', s)]: the leftmost, longest run of digits. *)
Fixpoint digit_run `{PyRuntime} (s : pystr) : pystr :=
  match s with
  | [] => []
  | c :: s' => if regex_digit c then c :: digit_run s' else []
  end.

Fixpoint search_digits `{PyRuntime} (s : pystr) : option pystr :=
  match s with
  | [] => None
  | c :: s' => if regex_digit c then Some (c :: digit_run s') else search_digits s'
  end.

Record tool_info : Type := mkToolInfo {
  description : pystr;
  params : list (pystr * pystr)
}.

Definition TOOLS_INFO : list (pystr * tool_info) :=
  [ (u "check_ticket_tool",
     mkToolInfo (u "查询余票")
       [(u "start_station", u "string"); (u "end_station", u "string")]);
    (u "book_ticket_tool",
     mkToolInfo (u "订票")
       [(u "start_station", u "string"); (u "end_station", u "string");
        (u "num_seats", u "int")]) ].

(** Lookup in a [dict] with [str] keys, kept in insertion order. *)
Fixpoint dict_get {A} (d : list (pystr * A)) (k : pystr) : option A :=
  match d with
  | [] => None
  | (k', v) :: d' => if str_eqb k' k then Some v else dict_get d' k
  end.

(** [d[k] = v]: an existing key keeps its place, a new one goes last. *)
Fixpoint dict_set {A} (d : list (pystr * A)) (k : pystr) (v : A) : list (pystr * A) :=
  match d with
  | [] => [(k, v)]
  | (k', v') :: d' =>
      if str_eqb k' k then (k', v) :: d' else (k', v') :: dict_set d' k v
  end.

Definition map_intent_to_tool `{PyRuntime} (user_input : pystr) : option pystr :=
  let user_input := str_lower user_input in
  if existsb (fun k => contains k user_input) [u "查询"; u "余票"] then
    Some (u "check_ticket_tool")
  else if existsb (fun k => contains k user_input) [u "订票"; u "买票"; u "购买"] then
    Some (u "book_ticket_tool")
  else None.

Definition cn_nums : list (pystr * Z) :=
  [ (u "一", 1); (u "二", 2); (u "两", 2); (u "三", 3); (u "四", 4); (u "五", 5);
    (u "六", 6); (u "七", 7); (u "八", 8); (u "九", 9); (u "十", 10) ].

(** The loop of [extract_num_seats] over [cn_nums.items()]. *)
Fixpoint first_numeral (items : list (pystr * Z)) (user_input : pystr) : option Z :=
  match items with
  | [] => None
  | (cn, num) :: items' =>
      if contains (cn ++ u "张")%list user_input then Some num
      else if contains cn user_input then Some num
      else first_numeral items' user_input
  end.

Definition extract_num_seats `{PyRuntime} (user_input : pystr) : pyresult (option Z) :=
  match search_digits user_input with
  | Some group1 =>
      match int_of_str group1 with
      | Some n => Ok (Some n)
      | None => Err ValueError
      end
  | None => Ok (first_numeral cn_nums user_input)
  end.

(** The memory pool of [main]: [memory_pool.append(entry)], then
    [memory_pool.pop(0)] when it holds more than [MAX_MEMORY] entries. *)
Definition MAX_MEMORY : nat := 5.

Definition remember {A} (memory_pool : list A) (entry : A) : list A :=
  let memory_pool := (memory_pool ++ [entry])%list in
  if (MAX_MEMORY <? List.length memory_pool)%nat then tl memory_pool
  else memory_pool.

(** Console input: the lines still to be typed; [input()] raises [EOFError]
    when there is none left.  What the code prints is not modelled. *)
Definition IO (A : Type) : Type := list pystr -> pyresult A * list pystr.

Definition input : IO pystr :=
  fun lines =>
    match lines with
    | [] => (Err EOFError, [])
    | line :: rest => (Ok line, rest)
    end.

Definition dict `{PyRuntime} : Type := list (pystr * value).

(** One round of the loop of [smart_fill_stations]. *)
Definition fill_station `{PyRuntime} (station_param : pystr) (params history : dict)
  : IO (dict * dict) :=
  fun lines =>
    let missing :=
      match dict_get params station_param with
      | None => true
      | Some v => negb (truthy v)
      end in
    if missing then
      let known :=
        match dict_get history station_param with
        | Some v => truthy v
        | None => false
        end in
      match known, dict_get history station_param with
      | true, Some v => (Ok (dict_set params station_param v, history), lines)
      | _, _ =>
          match input lines with
          | (Err e, rest) => (Err e, rest)
          | (Ok line, rest) =>
              let value := vstr (str_strip line) in
              (Ok (dict_set params station_param value,
                   dict_set history station_param value), rest)
          end
      end
    else (Ok (params, history), lines).

(** [smart_fill_stations]: returns the two dictionaries as it leaves them
    ([params] is also its return value).  What the dictionaries hold when the
    call raises is not kept. *)
Definition smart_fill_stations `{PyRuntime} (tool_name : pystr) (params history : dict)
  : IO (dict * dict) :=
  fun lines =>
    match fill_station (u "start_station") params history lines with
    | (Err e, rest) => (Err e, rest)
    | (Ok (params, history), rest) =>
        fill_station (u "end_station") params history rest
    end.

(** The value [smart_fill_stations] has for a station without asking: the
    one of [params] when it is truthy, else the one of [history] when that
    is truthy. *)
Definition station_known `{PyRuntime} (params history : dict) (station_param : pystr)
  : option value :=
  match dict_get params station_param with
  | Some v =>
      if truthy v then Some v
      else match dict_get history station_param with
           | Some h => if truthy h then Some h else None
           | None => None
           end
  | None =>
      match dict_get history station_param with
      | Some h => if truthy h then Some h else None
      | None => None
      end
  end.

(** The [while True] loop of [fill_missing_params] for one parameter: one
    line is read per round, and a [ValueError] of the conversion asks
    again. *)
Fixpoint ask_value `{PyRuntime} (expected_type : pystr) (default_value : value)
  (lines : list pystr) : pyresult value * list pystr :=
  match lines with
  | [] => (Err EOFError, [])
  | line :: rest =>
      let typed := str_strip line in
      let value :=
        if str_eqb typed [] && negb (is_none default_value) then default_value
        else vstr typed in
      if str_eqb expected_type (u "int") then
        match py_int value with
        | Ok n => (Ok (vint n), rest)
        | Err ValueError => ask_value expected_type default_value rest
        | Err e => (Err e, rest)
        end
      else if str_eqb expected_type (u "float") then
        match py_float value with
        | Ok x => (Ok x, rest)
        | Err ValueError => ask_value expected_type default_value rest
        | Err e => (Err e, rest)
        end
      else (Ok value, rest)
  end.

(** The [for param in missing] loop of [fill_missing_params], on the
    dictionary [params] built so far.  What the dictionaries hold when the
    call raises is not kept. *)
Fixpoint fill_missing_loop `{PyRuntime} (tool_name : pystr) (missing : list pystr)
  (params history : dict) (lines : list pystr) : pyresult (dict * dict) * list pystr :=
  match missing with
  | [] => (Ok (params, history), lines)
  | param :: missing' =>
      match dict_get TOOLS_INFO tool_name with
      | None => (Err KeyError, lines)
      | Some info =>
          match dict_get (let (_, info_params) := info in info_params) param with
          | None => (Err KeyError, lines)
          | Some expected_type =>
              let default_value :=
                match dict_get history param with
                | Some v => v
                | None => vnone
                end in
              match ask_value expected_type default_value lines with
              | (Err e, rest) => (Err e, rest)
              | (Ok v, rest) =>
                  fill_missing_loop tool_name missing'
                    (dict_set params param v) (dict_set history param v) rest
              end
          end
      end
  end.

Definition fill_missing_params `{PyRuntime} (tool_name : pystr) (missing : list pystr)
  (history : dict) : IO (dict * dict) :=
  fill_missing_loop tool_name missing [] history.

(** The [while True] loop of [select_ollama_model], on the names of the
    models [ollama.list()] returned. *)
Fixpoint choose_model `{PyRuntime} (models : list pystr) (lines : list pystr)
  : pyresult pystr * list pystr :=
  match lines with
  | [] => (Err EOFError, [])
  | line :: rest =>
      let choice := str_strip line in
      if str_isdigit choice then
        match int_of_str choice with
        | None => (Err ValueError, rest)
        | Some k =>
            if (1 <=? k) && (k <=? Z.of_nat (List.length models)) then
              match nth_error models (Z.to_nat (k - 1)) with
              | Some m => (Ok m, rest)
              | None => (Err IndexError, rest)
              end
            else choose_model models rest
        end
      else choose_model models rest
  end.

Definition select_ollama_model `{PyRuntime} (models : list pystr) : IO pystr :=
  fun lines =>
    match models with
    | [] => (Err RuntimeError, lines)
    | _ => choose_model models lines
    end.

(** A runtime restricted to ASCII, to run the definitions on examples. *)
Definition ascii_digit (c : N) : bool := (48 <=? c)%N && (c <=? 57)%N.

Definition ascii_int (s : pystr) : option Z :=
  match s with
  | [] => None
  | _ =>
      if forallb ascii_digit s
      then Some (fold_left (fun acc c => 10 * acc + (Z.of_N c - 48)) s 0)
      else None
  end.

Definition ascii_lower (s : pystr) : pystr :=
  map (fun c => if (65 <=? c)%N && (c <=? 90)%N then (c + 32)%N else c) s.

Fixpoint drop_spaces (s : pystr) : pystr :=
  match s with
  | 32%N :: s' => drop_spaces s'
  | _ => s
  end.

Definition ascii_strip (s : pystr) : pystr :=
  rev (drop_spaces (rev (drop_spaces s))).

Definition ascii_runtime : PyRuntime := {|
  regex_digit := ascii_digit;
  int_of_str := ascii_int;
  str_lower := ascii_lower;
  str_strip := ascii_strip;
  str_isdigit := fun s => match s with [] => false | _ => forallb ascii_digit s end;
  value := option (pystr + Z);
  vnone := None;
  vstr := fun s => Some (inl s);
  vint := fun z => Some (inr z);
  is_none := fun v => match v with None => true | Some _ => false end;
  truthy := fun v =>
    match v with
    | None => false
    | Some (inl s) => negb (str_eqb s [])
    | Some (inr z) => negb (z =? 0)
    end;
  py_int := fun v =>
    match v with
    | None => Err OtherError
    | Some (inl s) => match ascii_int s with Some z => Ok z | None => Err ValueError end
    | Some (inr z) => Ok z
    end;
  py_float := fun _ => Err OtherError
|}.

(** Two dictionaries to try the definitions on. *)
Definition demo_params : @dict ascii_runtime :=
  [(u "start_station", Some (inl (u "Beijing"))); (u "num_seats", Some (inr 2))].

Definition demo_history : @dict ascii_runtime :=
  [(u "start_station", Some (inl (u "Xian"))); (u "end_station", Some (inl (u "Shanghai")))].

(** ** Lists: counting, selecting and updating by id *)

Lemma where_available_iff s e r :
  where_available s e r = true <-> available_on s e r.
Proof.
  unfold where_available, station_eqb, available_on, on_route, AVAILABLE.
  rewrite !andb_true_iff, Z.eqb_eq, !String.eqb_eq. tauto.
Qed.

Lemma available_filter s e rows :
  Z.of_nat (List.length (filter (where_available s e) rows)) = available s e rows.
Proof.
  induction rows as [|r rows IH]; simpl; [reflexivity|].
  destruct (available_on_dec s e r) as [Ha|Ha].
  - apply where_available_iff in Ha. rewrite Ha. simpl List.length. lia.
  - destruct (where_available s e r) eqn:E.
    + apply where_available_iff in E. contradiction.
    + lia.
Qed.

Lemma available_nonneg s e rows : 0 <= available s e rows.
Proof. rewrite <- available_filter. lia. Qed.

Lemma id_in_false ids r : ~ In (id r) ids -> id_in ids r = false.
Proof.
  intros Hn. unfold id_in.
  destruct (existsb (Z.eqb (id r)) ids) eqn:E; [|reflexivity].
  apply existsb_exists in E. destruct E as [x [Hx Hxe]].
  apply Z.eqb_eq in Hxe. subst x. contradiction.
Qed.

Lemma update_booked_nil rows : update_booked [] rows = rows.
Proof.
  unfold update_booked. rewrite <- (map_id rows) at 2.
  apply map_ext. reflexivity.
Qed.

Lemma update_booked_skip i ids rows :
  ~ In i (map id rows) ->
  update_booked (i :: ids) rows = update_booked ids rows.
Proof.
  unfold update_booked. intros Hn. apply map_ext_in. intros r Hr.
  unfold id_in. simpl.
  destruct (id r =? i) eqn:E; [|reflexivity].
  apply Z.eqb_eq in E. exfalso. apply Hn. rewrite <- E. now apply in_map.
Qed.

Lemma In_firstn {A} (x : A) n l : In x (firstn n l) -> In x l.
Proof.
  intros Hx. rewrite <- (firstn_skipn n l). apply in_or_app. now left.
Qed.

Lemma selected_ids_incl p n rows i :
  In i (map id (firstn n (filter p rows))) -> In i (map id rows).
Proof.
  intros Hi. apply in_map_iff in Hi. destruct Hi as [r [Hr Hin]].
  apply In_firstn in Hin. apply filter_In in Hin.
  apply in_map_iff. exists r. tauto.
Qed.

(** With unique ids, the UPDATE by id of the rows the locking SELECT returned
    books exactly the first [n] matching rows. *)
Lemma update_selected p rows :
  NoDup (map id rows) ->
  forall n,
    update_booked (map id (firstn n (filter p rows))) rows = book_first p n rows.
Proof.
  induction rows as [|r rows IH]; intros Hnd n.
  - destruct n; reflexivity.
  - simpl in Hnd. apply NoDup_cons_iff in Hnd. destruct Hnd as [Hr Hnd].
    destruct n as [|n].
    + simpl firstn. simpl map. apply update_booked_nil.
    + simpl filter. simpl book_first. destruct (p r) eqn:Ep.
      * simpl firstn. simpl map.
        change (update_booked (id r :: map id (firstn n (filter p rows))) (r :: rows))
          with ((if id_in (id r :: map id (firstn n (filter p rows))) r
                 then set_booked r else r)
                :: update_booked (id r :: map id (firstn n (filter p rows))) rows).
        unfold id_in at 1. simpl existsb. rewrite Z.eqb_refl. simpl.
        f_equal. rewrite update_booked_skip by assumption. apply IH, Hnd.
      * change (update_booked (map id (firstn (S n) (filter p rows))) (r :: rows))
          with ((if id_in (map id (firstn (S n) (filter p rows))) r
                 then set_booked r else r)
                :: update_booked (map id (firstn (S n) (filter p rows))) rows).
        rewrite id_in_false.
        -- f_equal. apply IH, Hnd.
        -- intros Hi. apply Hr. eapply selected_ids_incl, Hi.
Qed.

Lemma set_booked_not_available s e r : ~ available_on s e (set_booked r).
Proof. unfold available_on, AVAILABLE. simpl. intros [H _]. discriminate. Qed.

Lemma available_book_first s e rows :
  forall n,
    available s e (book_first (where_available s e) n rows)
    = Z.max 0 (available s e rows - Z.of_nat n).
Proof.
  induction rows as [|r rows IH]; intros n.
  - destruct n; simpl; lia.
  - pose proof (available_nonneg s e rows) as Hpos.
    destruct n as [|n].
    + simpl book_first. pose proof (available_nonneg s e (r :: rows)). lia.
    + simpl book_first. destruct (where_available s e r) eqn:Ep.
      * apply where_available_iff in Ep. simpl available.
        destruct (available_on_dec s e (set_booked r)) as [Hb|_];
          [now apply set_booked_not_available in Hb|].
        destruct (available_on_dec s e r) as [_|Hn]; [|contradiction].
        rewrite IH. lia.
      * simpl available.
        destruct (available_on_dec s e r) as [Ha|_].
        -- apply where_available_iff in Ha. congruence.
        -- rewrite IH. lia.
Qed.

Lemma book_first_frame s e rows :
  forall n,
    Forall2 (booked_or_kept s e) rows (book_first (where_available s e) n rows).
Proof.
  induction rows as [|r rows IH]; intros n.
  - destruct n; constructor.
  - destruct n as [|n].
    + simpl. clear IH. induction (r :: rows); constructor; [now left | assumption].
    + simpl. destruct (where_available s e r) eqn:Ep.
      * constructor; [|apply IH]. right. split; [|reflexivity].
        now apply where_available_iff.
      * constructor; [now left | apply IH].
Qed.

Lemma status_changes_same rows : status_changes rows rows = 0.
Proof.
  induction rows as [|r rows IH]; simpl; [reflexivity|].
  rewrite Z.eqb_refl. lia.
Qed.

Lemma status_changes_book_first p rows :
  forall n, status_changes rows (book_first p n rows) <= Z.of_nat n.
Proof.
  induction rows as [|r rows IH]; intros n.
  - destruct n; simpl; lia.
  - destruct n as [|n].
    + simpl book_first. rewrite status_changes_same. lia.
    + simpl book_first. destruct (p r).
      * simpl status_changes. specialize (IH n).
        destruct (seat_status r =? 1); lia.
      * simpl status_changes. rewrite Z.eqb_refl. specialize (IH (S n)). lia.
Qed.

(** ** Running the operations *)

(** Unfolding of the monad and of the driver. *)
Ltac unfold_db :=
  unfold check_ticket_tool, book_ticket_tool, check_ticket, book_ticket,
    execute_count, execute_select_for_update, execute_update,
    get_db_connection, commit, rollback, close,
    try_finally, try_except, bind, ret, raise,
    put_session, get_session, put_committed, get_committed, driver_call, fetchone.

(** Case analysis on the failure schedule and on the tests of the code. *)
Ltac run_db := cbn [faults t_seat session fst snd hd_error].

Ltac split_run :=
  repeat (run_db;
          match goal with
          | |- context [match ?fs with [] => _ | _ :: _ => _ end] =>
              is_var fs; destruct fs as [|[?|] ?]
          | |- context [if ?b then _ else _] =>
              lazymatch b with
              | Z.ltb _ _ => destruct b eqn:?
              | Z.gtb _ _ => destruct b eqn:?
              | orb _ _ => destruct b eqn:?
              end
          | |- context [match map id ?l with [] => _ | _ :: _ => _ end] =>
              destruct l eqn:?; cbn [map]
          end);
  run_db.

Lemma check_ticket_cases s e w :
  exists w',
    t_seat w' = t_seat w /\
    (check_ticket s e w = (Returns (available s e (t_seat w)), w') \/
     exists ex, check_ticket s e w = (Raises ex, w')).
Proof.
  destruct w as [t ss fs]. unfold_db. split_run.
  all: rewrite ?available_filter.
  all: eexists; split; [|first [left; reflexivity | right; eexists; reflexivity]].
  all: reflexivity.
Qed.

Lemma check_ticket_quiet s e w :
  faults w = [] ->
  check_ticket s e w
  = (Returns (available s e (t_seat w)), mkWorld (t_seat w) (t_seat w) []).
Proof.
  destruct w as [t ss fs]. cbn [faults]. intros ->.
  unfold_db. run_db. now rewrite available_filter.
Qed.

Lemma length_selected s e rows n :
  0 <= n ->
  Z.of_nat (List.length (firstn (Z.to_nat n) (filter (where_available s e) rows)))
  = Z.min n (available s e rows).
Proof.
  intros Hn. rewrite length_firstn, <- available_filter. lia.
Qed.

(** A count within the rows of the table is not refused by the SELECT. *)
Lemma limit_accepted s e (rows : list seat) n :
  0 <= n <= available s e rows ->
  (n <? 0) || ((LIMIT_MAX <? n) && (Z.of_nat (List.length rows) <=? LIMIT_MAX)) = false.
Proof.
  intros Hn. rewrite <- available_filter in Hn.
  pose proof (filter_length_le (where_available s e) rows) as Hle.
  apply orb_false_iff. split; [apply Z.ltb_ge; lia|].
  destruct (LIMIT_MAX <? n) eqn:E; [|reflexivity].
  apply Z.ltb_lt in E. cbn [andb]. apply Z.leb_gt. lia.
Qed.

Lemma limit_nonneg (rows : list seat) n :
  (n <? 0) || ((LIMIT_MAX <? n) && (Z.of_nat (List.length rows) <=? LIMIT_MAX)) = false ->
  0 <= n.
Proof.
  intros H. apply orb_false_iff in H. destruct H as [H _].
  now apply Z.ltb_ge in H.
Qed.

(** The committed table after [book_ticket], whatever the driver does: either
    the table it started from, or that table with the selected rows booked,
    and the latter only for a satisfiable request. *)
Lemma book_ticket_cases s e n w :
  t_seat (snd (book_ticket s e n w)) = t_seat w \/
  (1 <= n <= available s e (t_seat w) /\
   t_seat (snd (book_ticket s e n w))
   = update_booked
       (map id (firstn (Z.to_nat n) (filter (where_available s e) (t_seat w))))
       (t_seat w)).
Proof.
  destruct w as [t ss fs]. unfold_db. split_run.
  all: try (left; reflexivity).
  all: right; split; [|reflexivity].
  all: match goal with
       | Hl : firstn _ _ = _ :: _, Hn : orb _ _ = false, Hlen : (_ <? _) = false |- _ =>
           pose proof (f_equal (fun x => Z.of_nat (List.length x)) Hl) as Hsel;
           cbv beta in Hsel;
           apply limit_nonneg in Hn; apply Z.ltb_ge in Hlen;
           rewrite length_selected in Hsel by assumption;
           cbn [List.length] in Hsel, Hlen; lia
       end.
Qed.

(** A satisfiable request on a driver that does not fail. *)
Lemma book_ticket_quiet s e n w :
  faults w = [] ->
  1 <= n <= available s e (t_seat w) ->
  let booked_rows :=
    update_booked
      (map id (firstn (Z.to_nat n) (filter (where_available s e) (t_seat w))))
      (t_seat w) in
  book_ticket s e n w
  = (Returns ("订票成功，扣减 " ++ str_int n ++ " 张票"),
     mkWorld booked_rows booked_rows []).
Proof.
  destruct w as [t ss fs]. cbn [faults t_seat]. intros -> Hn.
  pose proof (length_selected s e t n ltac:(lia)) as Hlen.
  unfold_db. run_db.
  rewrite (limit_accepted s e t n) by lia.
  run_db.
  replace (Z.of_nat (List.length (firstn (Z.to_nat n) (filter (where_available s e) t))) <? n)
    with false by (symmetry; apply Z.ltb_ge; lia).
  destruct (firstn (Z.to_nat n) (filter (where_available s e) t)) as [|r l] eqn:E.
  - cbn [List.length] in Hlen. lia.
  - reflexivity.
Qed.

Lemma book_ticket_tool_quiet s e n w :
  faults w = [] ->
  1 <= n <= available s e (t_seat w) ->
  let booked_rows :=
    update_booked
      (map id (firstn (Z.to_nat n) (filter (where_available s e) (t_seat w))))
      (t_seat w) in
  book_ticket_tool s e n w
  = (Returns (mkBookReply "success" ("订票成功，扣减 " ++ str_int n ++ " 张票") n),
     mkWorld booked_rows booked_rows []).
Proof.
  intros Hf Hn. unfold book_ticket_tool, try_except, bind.
  rewrite (check_ticket_quiet s e w Hf).
  replace (n >? available s e (t_seat w)) with false
    by (symmetry; rewrite Z.gtb_ltb; apply Z.ltb_ge; lia).
  rewrite book_ticket_quiet by (cbn [faults t_seat]; auto).
  reflexivity.
Qed.

(** The committed table after the tool, whatever the driver does. *)
Lemma book_ticket_tool_cases s e n w :
  t_seat (snd (book_ticket_tool s e n w)) = t_seat w \/
  (1 <= n <= available s e (t_seat w) /\
   t_seat (snd (book_ticket_tool s e n w))
   = update_booked
       (map id (firstn (Z.to_nat n) (filter (where_available s e) (t_seat w))))
       (t_seat w)).
Proof.
  unfold book_ticket_tool, try_except, bind.
  destruct (check_ticket_cases s e w) as [w1 [Ht [Hc|[ex Hc]]]]; rewrite Hc.
  - destruct (n >? available s e (t_seat w)).
    + left. exact Ht.
    + pose proof (book_ticket_cases s e n w1) as Hb.
      destruct (book_ticket s e n w1) as [[msg|ex] w2];
        cbn [ret fst snd] in *; rewrite Ht in Hb; exact Hb.
  - left. exact Ht.
Qed.

(** The tool converts every exception into a reply. *)
Lemma book_ticket_tool_never_raises s e n w :
  exists reply, fst (book_ticket_tool s e n w) = Returns reply.
Proof.
  unfold book_ticket_tool, try_except.
  match goal with |- context [match ?m w with _ => _ end] => destruct (m w) as [[a|ex] w1] end;
    eexists; reflexivity.
Qed.

Lemma booked_or_kept_step s e r r' : booked_or_kept s e r r' -> seat_step r r'.
Proof.
  unfold booked_or_kept, seat_step, available_on.
  intros [->|[[Hs _] ->]]; cbn; auto 6.
Qed.

Lemma seat_step_refl r : seat_step r r.
Proof. unfold seat_step. auto. Qed.

Lemma seat_step_trans r1 r2 r3 : seat_step r1 r2 -> seat_step r2 r3 -> seat_step r1 r3.
Proof.
  unfold seat_step, AVAILABLE, BOOKED.
  intros (Hi & Hs & He & H12) (Hi' & Hs' & He' & H23).
  repeat split; try congruence.
  destruct H12 as [H12|[Ha Hb]], H23 as [H23|[Ha' Hb']]; try (left; congruence);
    try (right; split; congruence).
Qed.

Lemma Forall2_same {A} (R : A -> A -> Prop) l :
  (forall x, R x x) -> Forall2 R l l.
Proof. intros HR. induction l; constructor; auto. Qed.

Lemma Forall2_chain {A} (R : A -> A -> Prop) :
  (forall x y z, R x y -> R y z -> R x z) ->
  forall l1 l2 l3, Forall2 R l1 l2 -> Forall2 R l2 l3 -> Forall2 R l1 l3.
Proof.
  intros HR l1 l2 l3 H12. revert l3.
  induction H12; intros l3 H23; inversion H23; subst; constructor; eauto.
Qed.

Lemma Forall2_weaken {A} (R S : A -> A -> Prop) l l' :
  (forall x y, R x y -> S x y) -> Forall2 R l l' -> Forall2 S l l'.
Proof. intros HRS H. induction H; constructor; auto. Qed.

Lemma seat_steps_ids rows rows' :
  Forall2 seat_step rows rows' -> map id rows' = map id rows.
Proof.
  induction 1 as [|r r' t t' Hr _ IH]; [reflexivity|].
  destruct Hr as [Hi _]. cbn [map]. congruence.
Qed.

(** The frame of one booking, on a table with unique ids. *)
Lemma booking_frame s e n rows rows' :
  NoDup (map id rows) ->
  rows' = rows \/
  rows' = update_booked
            (map id (firstn (Z.to_nat n) (filter (where_available s e) rows))) rows ->
  Forall2 (booked_or_kept s e) rows rows' /\
  status_changes rows rows' <= Z.max 0 n.
Proof.
  intros Hnd [->| ->].
  - split.
    + apply Forall2_same. intros r. now left.
    + rewrite status_changes_same. lia.
  - rewrite update_selected by assumption. split.
    + apply book_first_frame.
    + pose proof (status_changes_book_first (where_available s e) rows (Z.to_nat n)). lia.
Qed.

Lemma check_ticket_tool_keeps_table s e w :
  t_seat (snd (check_ticket_tool s e w)) = t_seat w.
Proof.
  unfold check_ticket_tool, try_except, bind.
  destruct (check_ticket_cases s e w) as [w1 [Ht [Hc|[ex Hc]]]]; rewrite Hc; exact Ht.
Qed.

Lemma book_first_ids p rows : forall n, map id (book_first p n rows) = map id rows.
Proof.
  induction rows as [|r rows IH]; intros [|n]; cbn [book_first]; try reflexivity.
  destruct (p r); cbn [map]; now rewrite IH.
Qed.

Lemma Forall2_nth_error_l {A} (R : A -> A -> Prop) l l' :
  Forall2 R l l' ->
  forall i x, nth_error l i = Some x -> exists y, nth_error l' i = Some y /\ R x y.
Proof.
  induction 1 as [|a b t t' Hab _ IH]; intros [|i] x Hx; cbn in *; try discriminate.
  - injection Hx as <-. eauto.
  - eauto.
Qed.

(** One call moves every seat by at most one step of its state machine. *)
Lemma exec_seat_step c w :
  NoDup (map id (t_seat w)) ->
  Forall2 seat_step (t_seat w) (t_seat (exec c w)).
Proof.
  intros Hnd. destruct c as [s e|s e n|s e|s e n]; cbn [exec].
  - destruct (check_ticket_cases s e w) as [w1 [Ht [Hc|[ex Hc]]]]; rewrite Hc;
      cbn [snd]; rewrite Ht; apply Forall2_same, seat_step_refl.
  - eapply Forall2_weaken; [apply booked_or_kept_step|].
    eapply (booking_frame s e n); [assumption|].
    destruct (book_ticket_cases s e n w) as [H|[_ H]]; eauto.
  - rewrite check_ticket_tool_keeps_table. apply Forall2_same, seat_step_refl.
  - eapply Forall2_weaken; [apply booked_or_kept_step|].
    eapply (booking_frame s e n); [assumption|].
    destruct (book_ticket_tool_cases s e n w) as [H|[_ H]]; eauto.
Qed.

(** A satisfiable booking on a quiet driver: the reply, the new count, and
    what the next call may rely on. *)
Lemma quiet_booking_effect s e n w :
  NoDup (map id (t_seat w)) ->
  faults w = [] ->
  1 <= n <= available s e (t_seat w) ->
  fst (book_ticket_tool s e n w)
  = Returns (mkBookReply "success" ("订票成功，扣减 " ++ str_int n ++ " 张票") n) /\
  available s e (t_seat (snd (book_ticket_tool s e n w)))
  = available s e (t_seat w) - n /\
  NoDup (map id (t_seat (snd (book_ticket_tool s e n w)))) /\
  faults (snd (book_ticket_tool s e n w)) = [].
Proof.
  intros Hnd Hf Hn. rewrite (book_ticket_tool_quiet s e n w Hf Hn).
  cbn [fst snd t_seat faults]. rewrite update_selected by assumption.
  repeat split.
  - rewrite available_book_first. lia.
  - now rewrite book_first_ids.
Qed.

(** A request that cannot be satisfied, on a quiet driver: some message other
    than the success message, and the same table. *)
Lemma book_ticket_quiet_refused s e n w :
  faults w = [] ->
  ~ (1 <= n <= available s e (t_seat w)) ->
  exists msg,
    book_ticket s e n w = (Returns msg, mkWorld (t_seat w) (t_seat w) []) /\
    String.eqb msg (success_message n) = false.
Proof.
  destruct w as [t ss fs]. cbn [faults t_seat]. intros -> Hn.
  unfold_db. run_db.
  destruct ((n <? 0) || ((LIMIT_MAX <? n) && (Z.of_nat (List.length t) <=? LIMIT_MAX)))
    eqn:Eneg; run_db.
  - eexists. split; reflexivity.
  - apply limit_nonneg in Eneg.
    pose proof (length_selected s e t n Eneg) as Hlen.
    destruct (Z.of_nat (List.length (firstn (Z.to_nat n) (filter (where_available s e) t))) <? n)
      eqn:Elt; run_db.
    + eexists. split; reflexivity.
    + apply Z.ltb_ge in Elt.
      destruct (firstn (Z.to_nat n) (filter (where_available s e) t)) as [|r l] eqn:E.
      * cbn [map]. run_db. eexists. split; reflexivity.
      * cbn [List.length] in Hlen, Elt. lia.
Qed.

(** X9. Served one after the other on a quiet driver, bookings never report
    more seats than were AVAILABLE, and the route ends with the initial count
    less the seats reported. *)
Lemma serial_bookings_never_oversell s e counts :
  forall w,
    NoDup (map id (t_seat w)) ->
    faults w = [] ->
    0 <= fst (serial_bookings s e counts w) <= available s e (t_seat w) /\
    available s e (t_seat (snd (serial_bookings s e counts w)))
    = available s e (t_seat w) - fst (serial_bookings s e counts w).
Proof.
  induction counts as [|n counts IH]; intros w Hnd Hf; cbn [serial_bookings].
  - cbn [fst snd]. pose proof (available_nonneg s e (t_seat w)). lia.
  - destruct (Z_le_dec 1 n) as [H1|H1];
      [destruct (Z_le_dec n (available s e (t_seat w))) as [H2|H2]|].
    + rewrite (book_ticket_quiet s e n w Hf (conj H1 H2)).
      rewrite update_selected by assumption.
      set (w1 := mkWorld _ _ _).
      assert (Hnd1 : NoDup (map id (t_seat w1)))
        by (unfold w1; cbn [t_seat]; now rewrite book_first_ids).
      specialize (IH w1 Hnd1 eq_refl).
      assert (Ha1 : available s e (t_seat w1) = available s e (t_seat w) - n)
        by (unfold w1; cbn [t_seat]; rewrite available_book_first; lia).
      destruct (serial_bookings s e counts w1) as [total w2].
      cbn [fst snd booked_by] in *. rewrite String.eqb_refl. lia.
    + destruct (book_ticket_quiet_refused s e n w Hf ltac:(lia)) as [msg [Hb Hm]].
      rewrite Hb. specialize (IH (mkWorld (t_seat w) (t_seat w) []) Hnd eq_refl).
      destruct (serial_bookings s e counts _) as [total w2].
      cbn [fst snd booked_by t_seat] in *. rewrite Hm. lia.
    + destruct (book_ticket_quiet_refused s e n w Hf ltac:(lia)) as [msg [Hb Hm]].
      rewrite Hb. specialize (IH (mkWorld (t_seat w) (t_seat w) []) Hnd eq_refl).
      destruct (serial_bookings s e counts _) as [total w2].
      cbn [fst snd booked_by t_seat] in *. rewrite Hm. lia.
Qed.

(** Why the results below ask for unique ids: the UPDATE goes by id, so a seat
    of another route that shares the id of a selected seat is booked with
    it. *)
Example shared_id_books_other_route :
  t_seat (snd (book_ticket "Beijing" "Shanghai" 1
                 (fresh [mkSeat 7 "Beijing" "Shanghai" 0;
                         mkSeat 7 "Shanghai" "Beijing" 0] [])))
  = [mkSeat 7 "Beijing" "Shanghai" 1; mkSeat 7 "Shanghai" "Beijing" 1].
Proof. reflexivity. Qed.

(** A seat step never frees a seat: the count of a route cannot grow. *)
Lemma seat_steps_available s e rows rows' :
  Forall2 seat_step rows rows' -> available s e rows' <= available s e rows.
Proof.
  induction 1 as [|r r' t t' Hr _ IH]; cbn [available]; [lia|].
  destruct (available_on_dec s e r') as [Ha'|_];
    destruct (available_on_dec s e r) as [Ha|Hn]; try lia.
  exfalso. apply Hn. clear IH.
  destruct Hr as (_ & Hs & He & Hst).
  unfold available_on, on_route, AVAILABLE, BOOKED in *.
  destruct Ha' as (H0 & Hs' & He').
  destruct Hst as [Hst|[Hst _]]; repeat split; congruence.
Qed.

(** A booking on one route leaves the count of every other route alone. *)
Lemma booked_or_kept_other_route s e s' e' rows rows' :
  (s', e') <> (s, e) ->
  Forall2 (booked_or_kept s e) rows rows' ->
  available s' e' rows' = available s' e' rows.
Proof.
  intros Hne. induction 1 as [|r r' t t' Hr _ IH]; cbn [available]; [reflexivity|].
  rewrite IH. f_equal.
  destruct Hr as [->|[Ha ->]]; [reflexivity|].
  destruct (available_on_dec s' e' (set_booked r)) as [Hb|_];
    [now apply set_booked_not_available in Hb|].
  destruct (available_on_dec s' e' r) as [Ha'|_]; [|reflexivity].
  exfalso. apply Hne.
  destruct Ha as (_ & Hs & He), Ha' as (_ & Hs' & He'). congruence.
Qed.

(** The two halves of the tool, run one after the other, are the tool. *)
Lemma book_ticket_tool_two_steps s e n w :
  book_ticket_tool s e n w
  = let (checked, w1) := book_ticket_tool_check s e w in
    book_ticket_tool_book s e n checked w1.
Proof.
  unfold book_ticket_tool, book_ticket_tool_check, book_ticket_tool_book,
    try_except, bind.
  destruct (check_ticket s e w) as [[remaining|ex] w1]; reflexivity.
Qed.

(** Two calls that each fit the seats available but not together, with both
    queries answered before either booking, on a quiet driver: both answer
    success, and only the seats of the first are booked. *)
Lemma interleaved_calls_report_more_than_booked s e n1 n2 w :
  NoDup (map id (t_seat w)) ->
  faults w = [] ->
  1 <= n1 <= available s e (t_seat w) ->
  1 <= n2 <= available s e (t_seat w) ->
  available s e (t_seat w) < n1 + n2 ->
  fst (fst (two_calls_interleaved s e n1 n2 w))
  = Returns (mkBookReply "success" ("订票成功，扣减 " ++ str_int n1 ++ " 张票") n1) /\
  snd (fst (two_calls_interleaved s e n1 n2 w))
  = Returns (mkBookReply "success" ("订票成功，扣减 " ++ str_int n2 ++ " 张票") n2) /\
  available s e (t_seat (snd (two_calls_interleaved s e n1 n2 w)))
  = available s e (t_seat w) - n1.
Proof.
  intros Hnd Hf H1 H2 Hsum.
  unfold two_calls_interleaved, book_ticket_tool_check.
  rewrite (check_ticket_quiet s e w Hf).
  rewrite (check_ticket_quiet s e (mkWorld (t_seat w) (t_seat w) []) eq_refl).
  cbn [t_seat]. unfold book_ticket_tool_book, try_except, bind.
  replace (n1 >? available s e (t_seat w)) with false
    by (symmetry; rewrite Z.gtb_ltb; apply Z.ltb_ge; lia).
  replace (n2 >? available s e (t_seat w)) with false
    by (symmetry; rewrite Z.gtb_ltb; apply Z.ltb_ge; lia).
  rewrite (book_ticket_quiet s e n1 (mkWorld (t_seat w) (t_seat w) []) eq_refl)
    by (cbn [t_seat]; exact H1).
  cbn [t_seat ret]. rewrite update_selected by assumption.
  set (booked_rows := book_first (where_available s e) (Z.to_nat n1) (t_seat w)).
  assert (Ha : available s e booked_rows = available s e (t_seat w) - n1)
    by (unfold booked_rows; rewrite available_book_first; lia).
  destruct (book_ticket_quiet_refused s e n2 (mkWorld booked_rows booked_rows []) eq_refl)
    as [msg [Hb _]]; [cbn [t_seat]; lia|].
  rewrite Hb. cbn [fst snd t_seat]. auto.
Qed.

(** * Properties of the reservation store *)

(** C1. A single booking of [n] seats, [1 <= n <= A], on a table with unique
    ids and a driver that raises no error: the tool answers success with
    [booked = n], and the route has exactly [A - n] AVAILABLE seats
    afterwards. *)
Theorem book_seats_deducts_exactly s e n w :
  NoDup (map id (t_seat w)) ->
  faults w = [] ->
  1 <= n <= available s e (t_seat w) ->
  fst (book_ticket_tool s e n w)
  = Returns (mkBookReply "success" ("订票成功，扣减 " ++ str_int n ++ " 张票") n) /\
  available s e (t_seat (snd (book_ticket_tool s e n w)))
  = available s e (t_seat w) - n.
Proof.
  intros Hnd Hf Hn.
  destruct (quiet_booking_effect s e n w Hnd Hf Hn) as (Hr & Ha & _).
  split; assumption.
Qed.

Lemma book_seats_deducts_exactly_witness :
  fst (book_ticket_tool "Beijing" "Shanghai" 2 (fresh demo_table []))
  = Returns (mkBookReply "success" ("订票成功，扣减 " ++ str_int 2 ++ " 张票") 2) /\
  available "Beijing" "Shanghai"
    (t_seat (snd (book_ticket_tool "Beijing" "Shanghai" 2 (fresh demo_table []))))
  = available "Beijing" "Shanghai" (t_seat (fresh demo_table [])) - 2.
Proof.
  apply (book_seats_deducts_exactly "Beijing" "Shanghai" 2 (fresh demo_table [])).
  - cbn. repeat constructor; cbn; intuition discriminate.
  - reflexivity.
  - vm_compute. split; discriminate.
Defined.

(** C2. A booking of more seats than the [A] AVAILABLE ones never changes the
    seat table and always answers fail with [booked = 0], whatever the driver
    does; when the availability query raises no error, the message states
    [A]. *)
Theorem book_seats_insufficient s e n w :
  available s e (t_seat w) < n ->
  t_seat (snd (book_ticket_tool s e n w)) = t_seat w /\
  (exists msg, fst (book_ticket_tool s e n w) = Returns (mkBookReply "fail" msg 0)) /\
  ((forall ex, fst (check_ticket s e w) <> Raises ex) ->
   fst (book_ticket_tool s e n w)
   = Returns (mkBookReply "fail"
                ("余票不足，仅剩 " ++ str_int (available s e (t_seat w)) ++ " 张") 0)).
Proof.
  intros Hn.
  assert (Hgt : (n >? available s e (t_seat w)) = true)
    by (rewrite Z.gtb_ltb; apply Z.ltb_lt; exact Hn).
  unfold book_ticket_tool, try_except, bind.
  destruct (check_ticket_cases s e w) as [w1 [Ht [Hc|[ex Hc]]]]; rewrite Hc.
  - rewrite Hgt. cbn [ret fst snd]. repeat split; eauto.
  - cbn [ret fst snd]. repeat split; eauto.
    intros Hok. exfalso. apply (Hok ex). reflexivity.
Qed.

Lemma book_seats_insufficient_witness :
  t_seat (snd (book_ticket_tool "Beijing" "Shanghai" 4 (fresh demo_table []))) = demo_table /\
  fst (book_ticket_tool "Beijing" "Shanghai" 4 (fresh demo_table []))
  = Returns (mkBookReply "fail" ("余票不足，仅剩 " ++ str_int 3 ++ " 张") 0).
Proof.
  destruct (book_seats_insufficient "Beijing" "Shanghai" 4 (fresh demo_table []))
    as (Hsame & _ & Hmsg).
  - vm_compute. reflexivity.
  - split; [exact Hsame|]. apply Hmsg. intros ex. vm_compute. discriminate.
Defined.

(** C3. Two calls for 2 seats each on a route with 3 AVAILABLE seats, both
    availability queries answered before either booking: both calls answer
    success with [booked = 2], 4 seats reported of 3, while the second
    [book_ticket] found 1 seat under its lock and returned its
    insufficient-seats message; 1 seat remains AVAILABLE, not 3 - 4. *)
Theorem interleaved_calls_oversell :
  available "Beijing" "Shanghai" demo_table = 3 /\
  two_calls_interleaved "Beijing" "Shanghai" 2 2 (fresh demo_table [])
  = (Returns (mkBookReply "success" ("订票成功，扣减 " ++ str_int 2 ++ " 张票") 2),
     Returns (mkBookReply "success" ("订票成功，扣减 " ++ str_int 2 ++ " 张票") 2),
     fresh (book_first (where_available "Beijing" "Shanghai") 2 demo_table) []) /\
  available "Beijing" "Shanghai"
    (book_first (where_available "Beijing" "Shanghai") 2 demo_table) = 1 /\
  fst (book_ticket "Beijing" "Shanghai" 2
         (fresh (book_first (where_available "Beijing" "Shanghai") 2 demo_table) []))
  = Returns ("余票不足，当前可用 " ++ str_int 1 ++ " 张票").
Proof. repeat split; vm_compute; reflexivity. Qed.

(** C4. The booking transaction of a request for 2 of the 3 available seats
    deadlocks on its UPDATE: [book_ticket] rolls back and returns its failure
    message, the table is unchanged, and [book_ticket_tool] nevertheless
    answers success with [booked = 2]. *)
Theorem failed_transaction_answered_success :
  fst (book_ticket "Beijing" "Shanghai" 2 (fresh demo_table [None; None; Some deadlock]))
  = Returns ("订票失败: " ++ str_exn deadlock) /\
  book_ticket_tool "Beijing" "Shanghai" 2
    (fresh demo_table [None; None; None; None; None; Some deadlock])
  = (Returns (mkBookReply "success" ("订票成功，扣减 " ++ str_int 2 ++ " 张票") 2),
     fresh demo_table []).
Proof. split; vm_compute; reflexivity. Qed.




(** C6, as stated, fails: the availability check completes and returns
    3 >= 2, the connection of the inner [book_ticket] cannot be opened, and
    the tool answers fail with [booked = 0]. *)
Lemma inner_exception_reaches_reply :
  fst (check_ticket "Beijing" "Shanghai"
         (fresh demo_table [None; None; None; Some connection_refused]))
  = Returns 3 /\
  fst (book_ticket_tool "Beijing" "Shanghai" 2
         (fresh demo_table [None; None; None; Some connection_refused]))
  = Returns (mkBookReply "fail" (str_exn connection_refused) 0) /\
  fst (book_ticket_tool "Beijing" "Shanghai" 2
         (fresh demo_table [None; None; None; Some connection_refused]))
  <> Returns (mkBookReply "success" ("订票成功，扣减 " ++ str_int 2 ++ " 张票") 2).
Proof.
  split; [vm_compute; reflexivity|]. split; [vm_compute; reflexivity|].
  vm_compute. discriminate.
Qed.

(** C6, amended. When the availability check returns [remaining >= num_seats]
    and the inner [book_ticket] returns, the tool answers success with
    [booked = num_seats] whatever string [book_ticket] returned; when the
    inner [book_ticket] raises, the tool answers fail with [booked = 0]. *)
Theorem book_ticket_string_discarded s e n w remaining w1 :
  check_ticket s e w = (Returns remaining, w1) ->
  n <= remaining ->
  (forall msg w2,
      book_ticket s e n w1 = (Returns msg, w2) ->
      book_ticket_tool s e n w
      = (Returns (mkBookReply "success" ("订票成功，扣减 " ++ str_int n ++ " 张票") n), w2)) /\
  (forall ex w2,
      book_ticket s e n w1 = (Raises ex, w2) ->
      book_ticket_tool s e n w = (Returns (mkBookReply "fail" (str_exn ex) 0), w2)).
Proof.
  intros Hc Hn.
  assert (Hgt : (n >? remaining) = false)
    by (rewrite Z.gtb_ltb; apply Z.ltb_ge; exact Hn).
  split; intros r w2 Hb; unfold book_ticket_tool, try_except, bind;
    rewrite Hc, Hgt, Hb; reflexivity.
Qed.

Lemma book_ticket_string_discarded_witness :
  book_ticket_tool "Beijing" "Shanghai" 2
    (fresh demo_table [None; None; None; None; None; None; Some deadlock])
  = (Returns (mkBookReply "success" ("订票成功，扣减 " ++ str_int 2 ++ " 张票") 2),
     fresh demo_table []).
Proof.
  refine (proj1 (book_ticket_string_discarded "Beijing" "Shanghai" 2
                   (fresh demo_table [None; None; None; None; None; None; Some deadlock])
                   3 (fresh demo_table [None; None; None; Some deadlock]) _ _)
            ("订票失败: " ++ str_exn deadlock) (fresh demo_table []) _).
  - vm_compute. reflexivity.
  - lia.
  - vm_compute. reflexivity.
Defined.

(** C7. Over every sequence of calls of the store, on a table with unique
    ids and on every behaviour of the driver: the table keeps its seats
    (same positions, ids and routes), every seat either keeps its status or
    has gone from AVAILABLE to BOOKED, and a BOOKED seat stays BOOKED. *)
Theorem seats_only_get_booked cs w :
  NoDup (map id (t_seat w)) ->
  Forall2 seat_step (t_seat w) (t_seat (exec_all cs w)) /\
  (forall i r,
      nth_error (t_seat w) i = Some r ->
      seat_status r = BOOKED ->
      exists r',
        nth_error (t_seat (exec_all cs w)) i = Some r' /\
        id r' = id r /\ seat_status r' = BOOKED).
Proof.
  intros Hnd.
  assert (Hsteps : Forall2 seat_step (t_seat w) (t_seat (exec_all cs w))).
  { revert w Hnd. unfold exec_all.
    induction cs as [|c cs IH]; intros w Hnd; cbn [fold_left].
    - apply Forall2_same, seat_step_refl.
    - pose proof (exec_seat_step c w Hnd) as Hc.
      eapply Forall2_chain; [apply seat_step_trans | exact Hc |].
      apply IH. rewrite (seat_steps_ids _ _ Hc). exact Hnd. }
  split; [exact Hsteps|].
  intros i r Hi Hb.
  destruct (Forall2_nth_error_l _ _ _ Hsteps i r Hi) as [r' [Hi' Hr']].
  exists r'. destruct Hr' as (Hid & _ & _ & Hst).
  repeat split; [exact Hi' | exact Hid |].
  unfold AVAILABLE, BOOKED in *. destruct Hst as [Hst|[Ha _]]; congruence.
Qed.

Lemma seats_only_get_booked_witness :
  Forall2 seat_step demo_table
    (t_seat (exec_all [Book_ticket_tool "Beijing" "Shanghai" 2;
                       Check_ticket "Beijing" "Shanghai";
                       Book_ticket "Shanghai" "Beijing" 1;
                       Check_ticket_tool "Shanghai" "Beijing"]
               (fresh demo_table [None; None; Some deadlock]))).
Proof.
  refine (proj1 (seats_only_get_booked _ (fresh demo_table [None; None; Some deadlock]) _)).
  cbn. repeat constructor; cbn; intuition discriminate.
Defined.

(** C8. [check_ticket] never changes the seat table; it either raises a
    driver error or returns the number of AVAILABLE seats of the route, and
    it returns that number whenever the driver does not fail.  The number is
    non-negative, and is 0 when no seat of the table is an AVAILABLE seat of
    the route. *)
Theorem check_ticket_counts_available s e w :
  t_seat (snd (check_ticket s e w)) = t_seat w /\
  (fst (check_ticket s e w) = Returns (available s e (t_seat w)) \/
   exists ex, fst (check_ticket s e w) = Raises ex) /\
  (faults w = [] -> fst (check_ticket s e w) = Returns (available s e (t_seat w))) /\
  0 <= available s e (t_seat w) /\
  ((forall r, In r (t_seat w) -> ~ available_on s e r) -> available s e (t_seat w) = 0).
Proof.
  split; [|split; [|split; [|split]]].
  - destruct (check_ticket_cases s e w) as [w1 [Ht [Hc|[ex Hc]]]]; rewrite Hc; exact Ht.
  - destruct (check_ticket_cases s e w) as [w1 [Ht [Hc|[ex Hc]]]]; rewrite Hc;
      [left; reflexivity | right; exists ex; reflexivity].
  - intros Hf. now rewrite check_ticket_quiet.
  - apply available_nonneg.
  - induction (t_seat w) as [|r rows IH]; intros Hnone; [reflexivity|].
    cbn [available]. destruct (available_on_dec s e r) as [Ha|_].
    + exfalso. apply (Hnone r); [now left | exact Ha].
    + rewrite IH; [reflexivity|]. intros r' Hr'. apply Hnone. now right.
Qed.

Lemma check_ticket_counts_available_witness :
  fst (check_ticket "Beijing" "Shanghai" (fresh demo_table [])) = Returns 3 /\
  fst (check_ticket "beijing" "Shanghai" (fresh demo_table [])) = Returns 0 /\
  available "Shanghai" "Shanghai" demo_table = 0.
Proof.
  pose proof (check_ticket_counts_available "Beijing" "Shanghai" (fresh demo_table []))
    as (_ & _ & Hq & _).
  pose proof (check_ticket_counts_available "beijing" "Shanghai" (fresh demo_table []))
    as (_ & _ & Hq' & _).
  pose proof (check_ticket_counts_available "Shanghai" "Shanghai" (fresh demo_table []))
    as (_ & _ & _ & _ & Hz).
  split; [|split].
  - exact (Hq eq_refl).
  - exact (Hq' eq_refl).
  - apply Hz. cbn [t_seat fresh demo_table In].
    intros r Hr (_ & Hs & He).
    repeat (destruct Hr as [<-|Hr]; [cbn in Hs, He; congruence|]).
    exact Hr.
Defined.

(** C9. Two successive identical bookings of [n >= 1] seats on a route with
    at least [2n] AVAILABLE seats (unique ids, no driver error): both answer
    success with [booked = n], the route ends with [A - 2n] AVAILABLE seats,
    and the second call has changed the table again. *)
Theorem book_seats_not_idempotent s e n w :
  NoDup (map id (t_seat w)) ->
  faults w = [] ->
  1 <= n ->
  2 * n <= available s e (t_seat w) ->
  let first_call := book_ticket_tool s e n w in
  let second_call := book_ticket_tool s e n (snd first_call) in
  fst first_call
  = Returns (mkBookReply "success" ("订票成功，扣减 " ++ str_int n ++ " 张票") n) /\
  fst second_call
  = Returns (mkBookReply "success" ("订票成功，扣减 " ++ str_int n ++ " 张票") n) /\
  available s e (t_seat (snd second_call)) = available s e (t_seat w) - 2 * n /\
  t_seat (snd second_call) <> t_seat (snd first_call).
Proof.
  intros Hnd Hf Hn H2n first_call second_call.
  destruct (quiet_booking_effect s e n w Hnd Hf ltac:(lia))
    as (Hr1 & Ha1 & Hnd1 & Hf1).
  fold first_call in Hr1, Ha1, Hnd1, Hf1.
  destruct (quiet_booking_effect s e n (snd first_call) Hnd1 Hf1 ltac:(lia))
    as (Hr2 & Ha2 & _ & _).
  fold second_call in Hr2, Ha2.
  repeat split; try assumption.
  - lia.
  - intros Heq. rewrite Heq in Ha2. lia.
Qed.

Lemma book_seats_not_idempotent_witness :
  available "Beijing" "Shanghai"
    (t_seat (snd (book_ticket_tool "Beijing" "Shanghai" 1
                    (snd (book_ticket_tool "Beijing" "Shanghai" 1 (fresh demo_table []))))))
  = available "Beijing" "Shanghai" demo_table - 2 * 1.
Proof.
  refine (proj1 (proj2 (proj2
    (book_seats_not_idempotent "Beijing" "Shanghai" 1 (fresh demo_table []) _ _ _ _)))).
  - cbn. repeat constructor; cbn; intuition discriminate.
  - reflexivity.
  - lia.
  - vm_compute. discriminate.
Defined.

(** C10. On a table with unique ids and on every behaviour of the driver, a
    booking leaves every seat as it was except AVAILABLE seats of the
    requested route, which it may set to BOOKED; at most [num_seats] seats
    change status (none for a negative count).  This holds for
    [book_ticket] and for the tool. *)
Theorem booking_touches_only_selected s e n w :
  NoDup (map id (t_seat w)) ->
  (Forall2 (booked_or_kept s e) (t_seat w) (t_seat (snd (book_ticket s e n w))) /\
   status_changes (t_seat w) (t_seat (snd (book_ticket s e n w))) <= Z.max 0 n) /\
  (Forall2 (booked_or_kept s e) (t_seat w) (t_seat (snd (book_ticket_tool s e n w))) /\
   status_changes (t_seat w) (t_seat (snd (book_ticket_tool s e n w))) <= Z.max 0 n).
Proof.
  intros Hnd. split; apply booking_frame; try assumption.
  - destruct (book_ticket_cases s e n w) as [H|[_ H]]; auto.
  - destruct (book_ticket_tool_cases s e n w) as [H|[_ H]]; auto.
Qed.

Lemma booking_touches_only_selected_witness :
  Forall2 (booked_or_kept "Beijing" "Shanghai") demo_table
    (t_seat (snd (book_ticket "Beijing" "Shanghai" 2 (fresh demo_table [])))) /\
  status_changes demo_table
    (t_seat (snd (book_ticket "Beijing" "Shanghai" 2 (fresh demo_table [])))) <= Z.max 0 2.
Proof.
  refine (proj1 (booking_touches_only_selected "Beijing" "Shanghai" 2
                   (fresh demo_table []) _)).
  cbn. repeat constructor; cbn; intuition discriminate.
Defined.

(** * Further properties of the store *)

(** X1. [check_ticket_tool] never raises and never changes the seat table.
    Its reply is success with [remaining] the number of AVAILABLE seats of
    the route, or, when [check_ticket] raised, fail with the text of the
    error and no [remaining]; on a driver that does not fail it is the
    success reply. *)
Theorem check_ticket_tool_reply s e w :
  t_seat (snd (check_ticket_tool s e w)) = t_seat w /\
  (fst (check_ticket_tool s e w)
   = Returns (mkCheckReply "success" "查询成功" (Some (available s e (t_seat w)))) \/
   exists ex,
     fst (check_ticket s e w) = Raises ex /\
     fst (check_ticket_tool s e w) = Returns (mkCheckReply "fail" (str_exn ex) None)) /\
  (faults w = [] ->
   fst (check_ticket_tool s e w)
   = Returns (mkCheckReply "success" "查询成功" (Some (available s e (t_seat w))))).
Proof.
  split; [apply check_ticket_tool_keeps_table|]. split.
  - unfold check_ticket_tool, try_except, bind.
    destruct (check_ticket_cases s e w) as [w1 [Ht [Hc|[ex Hc]]]]; rewrite Hc.
    + left. reflexivity.
    + right. exists ex. split; reflexivity.
  - intros Hf. unfold check_ticket_tool, try_except, bind.
    rewrite (check_ticket_quiet s e w Hf). reflexivity.
Qed.

Lemma check_ticket_tool_reply_witness :
  fst (check_ticket_tool "Beijing" "Shanghai" (fresh demo_table []))
  = Returns (mkCheckReply "success" "查询成功" (Some 3)).
Proof.
  exact (proj2 (proj2 (check_ticket_tool_reply "Beijing" "Shanghai" (fresh demo_table [])))
           eq_refl).
Defined.



(** X3. [book_ticket_tool] never raises, and its reply has one of two shapes:
    success with the success message and [booked = num_seats], or fail with
    [booked = 0]. *)
Theorem book_ticket_tool_reply_shape s e n w :
  fst (book_ticket_tool s e n w)
  = Returns (mkBookReply "success" ("订票成功，扣减 " ++ str_int n ++ " 张票") n) \/
  exists msg, fst (book_ticket_tool s e n w) = Returns (mkBookReply "fail" msg 0).
Proof.
  unfold book_ticket_tool, try_except, bind.
  destruct (check_ticket s e w) as [[rem|ex] w1].
  - destruct (n >? rem).
    + right. eexists. reflexivity.
    + destruct (book_ticket s e n w1) as [[msg|ex] w2].
      * left. reflexivity.
      * right. eexists. reflexivity.
  - right. eexists. reflexivity.
Qed.

(** X4. On a table with unique ids and on every behaviour of the driver, a
    booking on one route leaves the number of AVAILABLE seats of every other
    route as it was, through [book_ticket] and through the tool. *)
Theorem booking_keeps_other_routes s e n s' e' w :
  NoDup (map id (t_seat w)) ->
  (s', e') <> (s, e) ->
  available s' e' (t_seat (snd (book_ticket s e n w))) = available s' e' (t_seat w) /\
  available s' e' (t_seat (snd (book_ticket_tool s e n w))) = available s' e' (t_seat w).
Proof.
  intros Hnd Hne. split; apply (booked_or_kept_other_route s e); try assumption.
  - apply (booking_frame s e n); [assumption|].
    destruct (book_ticket_cases s e n w) as [H|[_ H]]; auto.
  - apply (booking_frame s e n); [assumption|].
    destruct (book_ticket_tool_cases s e n w) as [H|[_ H]]; auto.
Qed.

Lemma booking_keeps_other_routes_witness :
  available "Shanghai" "Beijing"
    (t_seat (snd (book_ticket_tool "Beijing" "Shanghai" 2 (fresh demo_table []))))
  = available "Shanghai" "Beijing" demo_table.
Proof.
  refine (proj2 (booking_keeps_other_routes "Beijing" "Shanghai" 2 "Shanghai" "Beijing"
                   (fresh demo_table []) _ _)).
  - cbn. repeat constructor; cbn; intuition discriminate.
  - discriminate.
Defined.

(** X5. On a table with unique ids, over every sequence of calls of the store
    and every behaviour of the driver, the number of AVAILABLE seats of a
    route never grows. *)
Theorem remaining_never_grows cs s e w :
  NoDup (map id (t_seat w)) ->
  available s e (t_seat (exec_all cs w)) <= available s e (t_seat w).
Proof.
  intros Hnd. apply seat_steps_available.
  revert w Hnd. unfold exec_all.
  induction cs as [|c cs IH]; intros w Hnd; cbn [fold_left].
  - apply Forall2_same, seat_step_refl.
  - pose proof (exec_seat_step c w Hnd) as Hc.
    eapply Forall2_chain; [apply seat_step_trans | exact Hc |].
    apply IH. rewrite (seat_steps_ids _ _ Hc). exact Hnd.
Qed.

Lemma remaining_never_grows_witness :
  available "Beijing" "Shanghai"
    (t_seat (exec_all [Book_ticket "Beijing" "Shanghai" 1;
                       Book_ticket_tool "Beijing" "Shanghai" 5;
                       Check_ticket_tool "Beijing" "Shanghai"]
               (fresh demo_table [None; Some deadlock])))
  <= available "Beijing" "Shanghai" demo_table.
Proof.
  apply (remaining_never_grows _ "Beijing" "Shanghai" (fresh demo_table [None; Some deadlock])).
  cbn. repeat constructor; cbn; intuition discriminate.
Defined.

(** X7. On a driver that does not fail, a request for zero or fewer seats is
    answered success with [booked = num_seats] (negative for a negative
    request), while the seat table stays as it was. *)
Theorem nonpositive_count_answered_success s e n w :
  faults w = [] ->
  n <= 0 ->
  book_ticket_tool s e n w
  = (Returns (mkBookReply "success" ("订票成功，扣减 " ++ str_int n ++ " 张票") n),
     mkWorld (t_seat w) (t_seat w) []).
Proof.
  intros Hf Hn. pose proof (available_nonneg s e (t_seat w)) as Hpos.
  unfold book_ticket_tool, try_except, bind.
  rewrite (check_ticket_quiet s e w Hf).
  replace (n >? available s e (t_seat w)) with false
    by (symmetry; rewrite Z.gtb_ltb; apply Z.ltb_ge; lia).
  destruct (book_ticket_quiet_refused s e n (mkWorld (t_seat w) (t_seat w) []) eq_refl)
    as [msg [Hb _]]; [cbn [t_seat]; lia|].
  rewrite Hb. reflexivity.
Qed.

Lemma nonpositive_count_answered_success_witness :
  book_ticket_tool "Beijing" "Shanghai" (-3) (fresh demo_table [])
  = (Returns (mkBookReply "success" ("订票成功，扣减 " ++ str_int (-3) ++ " 张票") (-3)),
     fresh demo_table []).
Proof.
  apply (nonpositive_count_answered_success "Beijing" "Shanghai" (-3) (fresh demo_table [])).
  - reflexivity.
  - lia.
Defined.

(** X8. Booking then asking: on a table with unique ids and a driver that
    does not fail, after a booking of [1 <= n <= A] seats the availability
    tool reports [A - n] for the route. *)
Theorem check_after_booking s e n w :
  NoDup (map id (t_seat w)) ->
  faults w = [] ->
  1 <= n <= available s e (t_seat w) ->
  fst (check_ticket_tool s e (snd (book_ticket_tool s e n w)))
  = Returns (mkCheckReply "success" "查询成功" (Some (available s e (t_seat w) - n))).
Proof.
  intros Hnd Hf Hn.
  destruct (quiet_booking_effect s e n w Hnd Hf Hn) as (_ & Ha & _ & Hf1).
  unfold check_ticket_tool, try_except, bind.
  rewrite (check_ticket_quiet s e _ Hf1). rewrite Ha. reflexivity.
Qed.

Lemma check_after_booking_witness :
  fst (check_ticket_tool "Beijing" "Shanghai"
         (snd (book_ticket_tool "Beijing" "Shanghai" 2 (fresh demo_table []))))
  = Returns (mkCheckReply "success" "查询成功" (Some (3 - 2))).
Proof.
  apply (check_after_booking "Beijing" "Shanghai" 2 (fresh demo_table [])).
  - cbn. repeat constructor; cbn; intuition discriminate.
  - reflexivity.
  - vm_compute. split; discriminate.
Defined.

Lemma serial_bookings_never_oversell_witness :
  0 <= fst (serial_bookings "Beijing" "Shanghai" [2; 2; 0; 1] (fresh demo_table []))
    <= available "Beijing" "Shanghai" demo_table /\
  available "Beijing" "Shanghai"
    (t_seat (snd (serial_bookings "Beijing" "Shanghai" [2; 2; 0; 1] (fresh demo_table []))))
  = available "Beijing" "Shanghai" demo_table
    - fst (serial_bookings "Beijing" "Shanghai" [2; 2; 0; 1] (fresh demo_table [])).
Proof.
  apply (serial_bookings_never_oversell "Beijing" "Shanghai" [2; 2; 0; 1]
           (fresh demo_table [])).
  - cbn. repeat constructor; cbn; intuition discriminate.
  - reflexivity.
Defined.

(** * The client *)

(** ** Strings and dictionaries *)

Lemma str_eqb_eq a : forall b, str_eqb a b = true <-> a = b.
Proof.
  induction a as [|x a IH]; intros [|y b]; cbn; split; intros H;
    try reflexivity; try discriminate.
  - apply andb_true_iff in H. destruct H as [Hx Ha].
    apply N.eqb_eq in Hx. apply IH in Ha. congruence.
  - injection H as -> ->. rewrite N.eqb_refl. now apply IH.
Qed.

Lemma str_eqb_refl a : str_eqb a a = true.
Proof. now apply str_eqb_eq. Qed.

Lemma str_eqb_neq a b : a <> b -> str_eqb a b = false.
Proof.
  intros Hne. destruct (str_eqb a b) eqn:E; [|reflexivity].
  apply str_eqb_eq in E. contradiction.
Qed.

Lemma starts_with_iff p : forall s, starts_with p s = true <-> exists b, s = (p ++ b)%list.
Proof.
  induction p as [|x p IH]; intros s; cbn.
  - split; [intros _; now exists s | reflexivity].
  - destruct s as [|y s]; split.
    + discriminate.
    + intros [b Hb]. discriminate.
    + intros H. apply andb_true_iff in H. destruct H as [Hx Hp].
      apply N.eqb_eq in Hx. apply IH in Hp. destruct Hp as [b ->].
      exists b. now subst.
    + intros [b Hb]. injection Hb as -> ->. rewrite N.eqb_refl. cbn.
      apply IH. now exists b.
Qed.

(** [contains] is Python's substring test. *)
Lemma contains_iff p s :
  contains p s = true <-> exists a b, s = (a ++ p ++ b)%list.
Proof.
  induction s as [|y s IH]; cbn [contains]; rewrite orb_true_iff.
  - split.
    + intros [H|H]; [|discriminate]. apply starts_with_iff in H.
      destruct H as [b Hb]. now exists [], b.
    + intros [a [b H]]. left. apply starts_with_iff.
      destruct a; [now exists b | discriminate].
  - split.
    + intros [H|H].
      * apply starts_with_iff in H. destruct H as [b Hb]. now exists [], b.
      * apply IH in H. destruct H as [a [b ->]]. now exists (y :: a), b.
    + intros [a [b H]]. destruct a as [|x a].
      * left. apply starts_with_iff. now exists b.
      * right. apply IH. injection H as -> ->. now exists a, b.
Qed.

Lemma contains_prefix p q s : contains (p ++ q)%list s = true -> contains p s = true.
Proof.
  intros H. apply contains_iff in H. destruct H as [a [b ->]].
  apply contains_iff. exists a, (q ++ b)%list. now rewrite <- app_assoc.
Qed.

Lemma dict_get_set_same {A} (d : list (pystr * A)) k v :
  dict_get (dict_set d k v) k = Some v.
Proof.
  induction d as [|[k' v'] d IH]; cbn.
  - now rewrite str_eqb_refl.
  - destruct (str_eqb k' k) eqn:E; cbn; rewrite E; [reflexivity | exact IH].
Qed.

Lemma dict_get_set_other {A} (d : list (pystr * A)) k v k' :
  k' <> k -> dict_get (dict_set d k v) k' = dict_get d k'.
Proof.
  intros Hne. induction d as [|[k0 v0] d IH]; cbn.
  - rewrite str_eqb_neq by congruence. reflexivity.
  - destruct (str_eqb k0 k) eqn:E; cbn.
    + apply str_eqb_eq in E. subst k0.
      rewrite (str_eqb_neq k k') by congruence. reflexivity.
    + destruct (str_eqb k0 k'); [reflexivity | exact IH].
Qed.

(** The literals are read as the code points Python sees. *)
Example u_reads_code_points :
  u "查询" = [26597; 35810]%N /\ u "张" = [24352]%N /\ u "int" = [105; 110; 116]%N.
Proof. repeat split; reflexivity. Qed.

(** ** [extract_num_seats] *)

Lemma search_digits_none `{PyRuntime} s :
  search_digits s = None <-> Forall (fun c => regex_digit c = false) s.
Proof.
  induction s as [|c s IH]; cbn.
  - split; [constructor | reflexivity].
  - destruct (regex_digit c) eqn:E; split.
    + discriminate.
    + intros Hf. inversion Hf; subst. congruence.
    + intros Hs. constructor; [exact E | now apply IH].
    + intros Hf. inversion Hf; subst. now apply IH.
Qed.

Lemma digit_run_digits `{PyRuntime} s : Forall (fun c => regex_digit c = true) (digit_run s).
Proof.
  induction s as [|c s IH]; cbn; [constructor|].
  destruct (regex_digit c) eqn:E; constructor; assumption.
Qed.

Lemma search_digits_some `{PyRuntime} s g :
  search_digits s = Some g -> g <> [] /\ Forall (fun c => regex_digit c = true) g.
Proof.
  induction s as [|c s IH]; cbn; [discriminate|].
  destruct (regex_digit c) eqn:E; [|exact IH].
  intros Hg. injection Hg as <-. split; [discriminate|].
  constructor; [exact E | apply digit_run_digits].
Qed.

(** The test on [cn + "张"] never decides: the loop returns the number of the
    first entry whose numeral occurs in the input. *)
Lemma first_numeral_find items user_input :
  first_numeral items user_input
  = option_map snd (find (fun item => contains (fst item) user_input) items).
Proof.
  induction items as [|[cn num] items IH];
    cbn [first_numeral find fst snd option_map]; [reflexivity|].
  destruct (contains (cn ++ u "张")%list user_input) eqn:E.
  - apply contains_prefix in E. now rewrite E.
  - destruct (contains cn user_input); [reflexivity | exact IH].
Qed.

(** X10. When the input holds no digit, [extract_num_seats] returns the
    number of the first entry of [cn_nums], in the order of the table, whose
    numeral occurs anywhere in the input: the position of the numerals in
    the input and a following "张" play no part. *)
Theorem extract_num_seats_table_order (rt : PyRuntime) user_input :
  Forall (fun c => regex_digit c = false) user_input ->
  extract_num_seats user_input
  = Ok (option_map snd (find (fun item => contains (fst item) user_input) cn_nums)).
Proof.
  intros Hnd. unfold extract_num_seats.
  rewrite (proj2 (search_digits_none user_input) Hnd).
  now rewrite first_numeral_find.
Qed.

Lemma extract_num_seats_table_order_witness :
  @extract_num_seats ascii_runtime (u "买三张一等座") = Ok (Some 1).
Proof.
  refine (eq_trans (extract_num_seats_table_order ascii_runtime (u "买三张一等座") _) _).
  - repeat constructor.
  - vm_compute. reflexivity.
Defined.

(** X11. [extract_num_seats] returns [None] exactly when the input holds no
    digit and none of the numerals of [cn_nums]. *)
Theorem extract_num_seats_none (rt : PyRuntime) user_input :
  extract_num_seats user_input = Ok None <->
  Forall (fun c => regex_digit c = false) user_input /\
  Forall (fun item => contains (fst item) user_input = false) cn_nums.
Proof.
  unfold extract_num_seats. split.
  - destruct (search_digits user_input) as [g|] eqn:Es.
    + destruct (int_of_str g); discriminate.
    + intros Hr. split; [now apply search_digits_none|].
      assert (Hr' : first_numeral cn_nums user_input = None) by congruence.
      clear Hr. rename Hr' into Hr. rewrite first_numeral_find in Hr.
      apply Forall_forall. intros item Hin.
      destruct (find (fun item => contains (fst item) user_input) cn_nums) as [it|] eqn:Ef;
        [discriminate|].
      exact (find_none _ _ Ef item Hin).
  - intros [Hnd Hnone]. rewrite (proj2 (search_digits_none user_input) Hnd).
    rewrite first_numeral_find.
    destruct (find (fun item => contains (fst item) user_input) cn_nums) as [it|] eqn:Ef;
      [|reflexivity].
    apply find_some in Ef. destruct Ef as [Hin Hc].
    rewrite Forall_forall in Hnone. rewrite (Hnone it Hin) in Hc. discriminate.
Qed.

(** X12. A number returned by [extract_num_seats] is never negative, for
    every runtime whose [int] of a run of digits is not negative; read from
    the numerals it lies between 1 and 10. *)
Theorem extract_num_seats_range (rt : PyRuntime) user_input n :
  (forall g z,
      g <> [] -> Forall (fun c => regex_digit c = true) g ->
      int_of_str g = Some z -> 0 <= z) ->
  extract_num_seats user_input = Ok (Some n) ->
  0 <= n /\
  (Forall (fun c => regex_digit c = false) user_input -> 1 <= n <= 10).
Proof.
  intros Hint. unfold extract_num_seats.
  assert (Hnum : forall items : list (pystr * Z),
             Forall (fun item => 1 <= snd item <= 10) items ->
             first_numeral items user_input = Some n -> 1 <= n <= 10).
  { intros items Hitems. rewrite first_numeral_find.
    destruct (find (fun item => contains (fst item) user_input) items) as [it|] eqn:Ef;
      [|discriminate].
    apply find_some in Ef. destruct Ef as [Hin _].
    rewrite Forall_forall in Hitems. specialize (Hitems it Hin).
    cbn. intros Hn. injection Hn as <-. exact Hitems. }
  assert (Htable : Forall (fun item : pystr * Z => 1 <= snd item <= 10) cn_nums)
    by (unfold cn_nums; repeat constructor; cbn; lia).
  destruct (search_digits user_input) as [g|] eqn:Es.
  - destruct (int_of_str g) as [z|] eqn:Ez; [|discriminate].
    intros Hr. injection Hr as <-.
    destruct (search_digits_some _ _ Es) as [Hne Hd]. split.
    + exact (Hint g z Hne Hd Ez).
    + intros Hnd. apply search_digits_none in Hnd. congruence.
  - intros Hr. assert (Hr' : first_numeral cn_nums user_input = Some n) by congruence.
    specialize (Hnum cn_nums Htable Hr').
    split; [lia | intros _; exact Hnum].
Qed.

Lemma ascii_int_nonneg g z : ascii_int g = Some z -> 0 <= z.
Proof.
  unfold ascii_int. destruct g as [|c g]; [discriminate|].
  destruct (forallb ascii_digit (c :: g)) eqn:E; [|discriminate].
  intros Hz. injection Hz as <-.
  assert (Hfold : forall l acc, forallb ascii_digit l = true -> 0 <= acc ->
            0 <= fold_left (fun acc c => 10 * acc + (Z.of_N c - 48)) l acc).
  { induction l as [|d l IH]; intros acc Hl Hacc; cbn [fold_left]; [exact Hacc|].
    cbn [forallb] in Hl. apply andb_true_iff in Hl. destruct Hl as [Hd Hl].
    apply IH; [exact Hl|].
    unfold ascii_digit in Hd. apply andb_true_iff in Hd. destruct Hd as [Hlo _].
    apply N.leb_le in Hlo. lia. }
  apply (Hfold (c :: g) 0 E). lia.
Qed.

Lemma extract_num_seats_range_witness :
  @extract_num_seats ascii_runtime (u "-5张") = Ok (Some 5) /\ 0 <= 5.
Proof.
  split; [vm_compute; reflexivity|].
  refine (proj1 (extract_num_seats_range ascii_runtime (u "-5张") 5 _ _)).
  - intros g z _ _ Hz. exact (ascii_int_nonneg g z Hz).
  - vm_compute. reflexivity.
Defined.

(** ** [map_intent_to_tool] *)

(** X13. In [map_intent_to_tool] the query keywords win over the booking
    keywords: an input whose lower-cased form holds "查询" or "余票" maps to
    [check_ticket_tool] whatever else it holds, and [book_ticket_tool] is
    returned only for an input with a booking keyword and no query keyword.
    Every name returned is a key of [TOOLS_INFO]. *)
Theorem map_intent_query_first (rt : PyRuntime) user_input :
  (contains (u "查询") (str_lower user_input) = true \/
   contains (u "余票") (str_lower user_input) = true ->
   map_intent_to_tool user_input = Some (u "check_ticket_tool")) /\
  (map_intent_to_tool user_input = Some (u "book_ticket_tool") ->
   contains (u "查询") (str_lower user_input) = false /\
   contains (u "余票") (str_lower user_input) = false /\
   (contains (u "订票") (str_lower user_input) = true \/
    contains (u "买票") (str_lower user_input) = true \/
    contains (u "购买") (str_lower user_input) = true)) /\
  (forall tool_name,
      map_intent_to_tool user_input = Some tool_name ->
      dict_get TOOLS_INFO tool_name <> None).
Proof.
  unfold map_intent_to_tool. cbn [existsb].
  destruct (contains (u "查询") (str_lower user_input)) eqn:E1;
    destruct (contains (u "余票") (str_lower user_input)) eqn:E2;
    destruct (contains (u "订票") (str_lower user_input)) eqn:E3;
    destruct (contains (u "买票") (str_lower user_input)) eqn:E4;
    destruct (contains (u "购买") (str_lower user_input)) eqn:E5;
    cbn [orb].
  all: split; [|split].
  all: try (intros [H|H]; first [reflexivity | discriminate]).
  all: try (intros H; first [discriminate H | now auto]).
  all: intros tool_name H; try discriminate H; injection H as <-; vm_compute; discriminate.
Qed.

Lemma map_intent_query_first_witness :
  @map_intent_to_tool ascii_runtime (u "查询后订票") = Some (u "check_ticket_tool").
Proof.
  refine (proj1 (map_intent_query_first ascii_runtime (u "查询后订票")) _).
  left. vm_compute. reflexivity.
Defined.

(** ** The memory pool of [main] *)

Lemma remember_skipn {A} (pool : list A) entry :
  (List.length pool <= MAX_MEMORY)%nat ->
  remember pool entry
  = skipn (List.length (pool ++ [entry])%list - MAX_MEMORY) (pool ++ [entry])%list.
Proof.
  intros Hlen. unfold remember, MAX_MEMORY in *.
  rewrite length_app in *. cbn [List.length] in *.
  destruct (5 <? List.length pool + 1)%nat eqn:E.
  - apply Nat.ltb_lt in E.
    replace (List.length pool + 1 - 5)%nat with 1%nat by lia.
    destruct (pool ++ [entry])%list; reflexivity.
  - apply Nat.ltb_ge in E.
    replace (List.length pool + 1 - 5)%nat with 0%nat by lia. reflexivity.
Qed.

(** X14. The memory pool never holds more than [MAX_MEMORY] calls: starting
    from a pool within the bound, after any number of recorded calls it
    holds the most recent [MAX_MEMORY] of them (older entries of the pool
    included), oldest first. *)
Theorem memory_pool_keeps_latest {A} (entries pool : list A) :
  (List.length pool <= MAX_MEMORY)%nat ->
  (List.length (fold_left remember entries pool) <= MAX_MEMORY)%nat /\
  fold_left remember entries pool
  = skipn (List.length (pool ++ entries)%list - MAX_MEMORY) (pool ++ entries)%list.
Proof.
  revert pool. induction entries as [|e entries IH]; intros pool Hlen; cbn [fold_left].
  - rewrite app_nil_r. split; [exact Hlen|].
    replace (List.length pool - MAX_MEMORY)%nat with 0%nat by lia. reflexivity.
  - pose proof (remember_skipn pool e Hlen) as Hr.
    assert (Hlen' : (List.length (remember pool e) <= MAX_MEMORY)%nat).
    { rewrite Hr, length_skipn, length_app. cbn [List.length]. unfold MAX_MEMORY in *. lia. }
    destruct (IH (remember pool e) Hlen') as [Hb Hfinal]. split; [exact Hb|].
    rewrite Hfinal, Hr.
    set (k := (List.length (pool ++ [e])%list - MAX_MEMORY)%nat).
    assert (Hk : (k <= List.length (pool ++ [e])%list)%nat) by (unfold k; lia).
    replace (skipn k (pool ++ [e]) ++ entries)%list
      with (skipn k ((pool ++ [e]) ++ entries)%list).
    + rewrite skipn_skipn, <- app_assoc. cbn [app]. f_equal.
      rewrite !length_app, length_skipn, !length_app. cbn [List.length].
      unfold k. rewrite length_app. cbn [List.length]. unfold MAX_MEMORY in *. lia.
    + rewrite skipn_app.
      replace (k - List.length (pool ++ [e])%list)%nat with 0%nat by lia.
      reflexivity.
Qed.

Lemma memory_pool_keeps_latest_witness :
  fold_left remember [1; 2; 3; 4; 5; 6; 7] ([] : list Z) = [3; 4; 5; 6; 7].
Proof.
  refine (eq_trans (proj2 (memory_pool_keeps_latest [1; 2; 3; 4; 5; 6; 7] [] _)) _).
  - cbn. lia.
  - reflexivity.
Defined.

(** ** [smart_fill_stations] *)

Lemma fill_station_known `{PyRuntime} k params history lines v :
  station_known params history k = Some v ->
  exists params',
    fill_station k params history lines = (Ok (params', history), lines) /\
    dict_get params' k = Some v /\
    (forall k', k' <> k -> dict_get params' k' = dict_get params k').
Proof.
  unfold station_known, fill_station. intros Hk.
  destruct (dict_get params k) as [pv|] eqn:Ep.
  - destruct (truthy pv) eqn:Et; cbn [negb].
    + injection Hk as <-. exists params. auto.
    + destruct (dict_get history k) as [h|] eqn:Eh; [|discriminate].
      destruct (truthy h) eqn:Eth; [|discriminate]. injection Hk as <-.
      eexists. split; [reflexivity|]. split.
      * apply dict_get_set_same.
      * intros k' Hne. now apply dict_get_set_other.
  - destruct (dict_get history k) as [h|] eqn:Eh; [|discriminate].
    destruct (truthy h) eqn:Eth; [|discriminate]. injection Hk as <-.
    eexists. split; [reflexivity|]. split.
    + apply dict_get_set_same.
    + intros k' Hne. now apply dict_get_set_other.
Qed.

Lemma fill_station_unknown `{PyRuntime} k params history lines :
  station_known params history k = None ->
  fill_station k params history lines
  = match lines with
    | [] => (Err EOFError, [])
    | line :: rest =>
        (Ok (dict_set params k (vstr (str_strip line)),
             dict_set history k (vstr (str_strip line))), rest)
    end.
Proof.
  unfold station_known, fill_station, input. intros Hk.
  destruct (dict_get params k) as [pv|] eqn:Ep.
  - destruct (truthy pv) eqn:Et; [discriminate|]. cbn [negb].
    destruct (dict_get history k) as [h|] eqn:Eh.
    + destruct (truthy h) eqn:Eth; [discriminate|]. now destruct lines.
    + now destruct lines.
  - destruct (dict_get history k) as [h|] eqn:Eh.
    + destruct (truthy h) eqn:Eth; [discriminate|]. now destruct lines.
    + now destruct lines.
Qed.

(** What one round leaves behind when it returns. *)
Lemma fill_station_result `{PyRuntime} k params history lines params' history' rest :
  fill_station k params history lines = (Ok (params', history'), rest) ->
  dict_get params' k <> None /\
  (forall k', k' <> k ->
     dict_get params' k' = dict_get params k' /\
     dict_get history' k' = dict_get history k') /\
  (forall v, dict_get params k = Some v -> truthy v = true ->
     dict_get params' k = Some v).
Proof.
  intros Hrun.
  destruct (station_known params history k) as [v|] eqn:Ek.
  - destruct (fill_station_known k params history lines v Ek) as (p1 & Hp & Hget & Hother).
    rewrite Hp in Hrun. injection Hrun as <- <- <-.
    split; [congruence|]. split.
    + intros k' Hne. split; [now apply Hother | reflexivity].
    + intros pv Hpv Ht. unfold station_known in Ek. rewrite Hpv, Ht in Ek. congruence.
  - rewrite (fill_station_unknown k params history lines Ek) in Hrun.
    destruct lines as [|line lines']; [discriminate|].
    injection Hrun as <- <- <-. split; [|split].
    + rewrite dict_get_set_same. discriminate.
    + intros k' Hne. split; now apply dict_get_set_other.
    + intros pv Hpv Ht. unfold station_known in Ek. rewrite Hpv, Ht in Ek. discriminate.
Qed.

Lemma station_keys_differ : u "start_station" <> u "end_station".
Proof. vm_compute. discriminate. Qed.

(** X15. When [smart_fill_stations] returns, [params] holds both
    [start_station] and [end_station]; every other key of [params] and of
    [history] is as it was, and a station that [params] already held with a
    truthy value keeps that value. *)
Theorem smart_fill_stations_result (rt : PyRuntime)
  tool_name params history lines params' history' rest :
  smart_fill_stations tool_name params history lines = (Ok (params', history'), rest) ->
  dict_get params' (u "start_station") <> None /\
  dict_get params' (u "end_station") <> None /\
  (forall k, k <> u "start_station" -> k <> u "end_station" ->
     dict_get params' k = dict_get params k /\
     dict_get history' k = dict_get history k) /\
  (forall k v, k = u "start_station" \/ k = u "end_station" ->
     dict_get params k = Some v -> truthy v = true ->
     dict_get params' k = Some v).
Proof.
  unfold smart_fill_stations. intros Hrun.
  pose proof station_keys_differ as Hdiff.
  destruct (fill_station (u "start_station") params history lines)
    as [[[p1 h1]|e] r1] eqn:E1; [|discriminate].
  destruct (fill_station_result _ _ _ _ _ _ _ E1) as (Hs1 & Hf1 & Hk1).
  destruct (fill_station_result _ _ _ _ _ _ _ Hrun) as (Hs2 & Hf2 & Hk2).
  split; [|split; [|split]].
  - destruct (Hf2 (u "start_station") Hdiff) as [Hp _]. now rewrite Hp.
  - exact Hs2.
  - intros k Hks Hke. destruct (Hf1 k Hks) as [Hp1 Hh1], (Hf2 k Hke) as [Hp2 Hh2].
    split; congruence.
  - intros k v [-> | ->] Hv Ht.
    + destruct (Hf2 (u "start_station") Hdiff) as [Hp _]. rewrite Hp. now apply Hk1.
    + apply Hk2; [|exact Ht].
      destruct (Hf1 (u "end_station") (not_eq_sym Hdiff)) as [Hp _]. now rewrite Hp.
Qed.

Lemma smart_fill_stations_result_witness :
  dict_get (fst (match fst (@smart_fill_stations ascii_runtime (u "book_ticket_tool")
                              demo_params [] [u " Shanghai "]) with
                 | Ok r => r
                 | Err _ => ([], [])
                 end)) (u "end_station") <> None.
Proof.
  refine (proj1 (proj2 (smart_fill_stations_result ascii_runtime (u "book_ticket_tool")
                          demo_params [] [u " Shanghai "] _ _ [] _))).
  vm_compute. reflexivity.
Defined.

(** X16. [smart_fill_stations] asks only for what it cannot find: when each
    station has a truthy value in [params] or else in [history], it reads no
    input, leaves [history] as it was and returns [params] with those two
    values. *)
Theorem smart_fill_stations_no_prompt (rt : PyRuntime)
  tool_name params history lines vs ve :
  station_known params history (u "start_station") = Some vs ->
  station_known params history (u "end_station") = Some ve ->
  exists params',
    smart_fill_stations tool_name params history lines = (Ok (params', history), lines) /\
    dict_get params' (u "start_station") = Some vs /\
    dict_get params' (u "end_station") = Some ve.
Proof.
  intros Hs He. unfold smart_fill_stations.
  pose proof station_keys_differ as Hdiff.
  destruct (fill_station_known _ params history lines vs Hs) as (p1 & Hp1 & Hg1 & Ho1).
  rewrite Hp1.
  assert (He1 : station_known p1 history (u "end_station") = Some ve).
  { unfold station_known in *. rewrite (Ho1 (u "end_station") (not_eq_sym Hdiff)). exact He. }
  destruct (fill_station_known _ p1 history lines ve He1) as (p2 & Hp2 & Hg2 & Ho2).
  exists p2. split; [exact Hp2|]. split; [|exact Hg2].
  rewrite (Ho2 (u "start_station") Hdiff). exact Hg1.
Qed.

Lemma smart_fill_stations_no_prompt_witness :
  exists params',
    @smart_fill_stations ascii_runtime (u "book_ticket_tool") demo_params demo_history []
    = (Ok (params', demo_history), []) /\
    dict_get params' (u "start_station") = Some (Some (inl (u "Beijing"))) /\
    dict_get params' (u "end_station") = Some (Some (inl (u "Shanghai"))).
Proof.
  apply (smart_fill_stations_no_prompt ascii_runtime (u "book_ticket_tool")
           demo_params demo_history []); vm_compute; reflexivity.
Defined.

(** X17. A station found neither in [params] nor in [history] costs exactly
    one line of input: with both stations unknown, two lines are read and
    each, stripped, is stored under its key in [params] and in [history]
    (an empty line included); with no line left the call raises
    [EOFError]. *)
Theorem smart_fill_stations_prompts (rt : PyRuntime) tool_name params history lines :
  station_known params history (u "start_station") = None ->
  station_known params history (u "end_station") = None ->
  smart_fill_stations tool_name params history lines
  = match lines with
    | line1 :: line2 :: rest =>
        (Ok (dict_set (dict_set params (u "start_station") (vstr (str_strip line1)))
               (u "end_station") (vstr (str_strip line2)),
             dict_set (dict_set history (u "start_station") (vstr (str_strip line1)))
               (u "end_station") (vstr (str_strip line2))), rest)
    | _ => (Err EOFError, [])
    end.
Proof.
  intros Hs He. unfold smart_fill_stations.
  pose proof station_keys_differ as Hdiff.
  rewrite (fill_station_unknown _ params history lines Hs).
  destruct lines as [|line1 lines]; [reflexivity|].
  rewrite fill_station_unknown.
  - destruct lines; reflexivity.
  - unfold station_known in *.
    rewrite !dict_get_set_other by (apply not_eq_sym; exact Hdiff). exact He.
Qed.

Lemma smart_fill_stations_prompts_witness :
  fst (@smart_fill_stations ascii_runtime (u "book_ticket_tool") [] [] [u "Beijing"])
  = Err EOFError.
Proof.
  rewrite (smart_fill_stations_prompts ascii_runtime (u "book_ticket_tool") [] []
             [u "Beijing"]); reflexivity.
Defined.

(** ** [fill_missing_params] *)

Lemma ask_value_int `{PyRuntime} default_value lines :
  forall v rest,
    ask_value (u "int") default_value lines = (Ok v, rest) ->
    exists n, v = vint n.
Proof.
  induction lines as [|line lines IH]; intros v rest; cbn [ask_value]; [discriminate|].
  replace (str_eqb (u "int") (u "int")) with true by reflexivity.
  destruct (py_int _) as [n|[]]; try discriminate.
  - intros Hr. injection Hr as <- _. now exists n.
  - apply IH.
Qed.

(** The loop leaves under each asked parameter one value, the same in
    [params] and in [history], and touches no other key. *)
Lemma fill_missing_loop_result `{PyRuntime} tool_name missing :
  forall params history lines params' history' rest,
    fill_missing_loop tool_name missing params history lines
    = (Ok (params', history'), rest) ->
    (forall p, In p missing ->
       exists v, dict_get params' p = Some v /\ dict_get history' p = Some v) /\
    (forall k, ~ In k missing ->
       dict_get params' k = dict_get params k /\
       dict_get history' k = dict_get history k).
Proof.
  induction missing as [|p0 missing IH];
    intros params history lines params' history' rest Hrun; cbn [fill_missing_loop] in Hrun.
  - injection Hrun as <- <- <-. split; [intros p []|auto].
  - destruct (dict_get TOOLS_INFO tool_name) as [info|]; [|discriminate].
    destruct (dict_get (let (_, info_params) := info in info_params) p0)
      as [expected_type|]; [|discriminate].
    destruct (ask_value expected_type _ lines) as [[v|e] r1]; [|discriminate].
    destruct (IH _ _ _ _ _ _ Hrun) as [Hin Hout]. split.
    + intros p [<-|Hp]; [|now apply Hin].
      destruct (in_dec pystr_eq_dec p0 missing) as [Hp|Hp]; [now apply Hin|].
      destruct (Hout p0 Hp) as [Hp' Hh']. exists v.
      rewrite Hp', Hh', !dict_get_set_same. auto.
    + intros k Hk. cbn [In] in Hk.
      destruct (Hout k) as [Hp' Hh']; [tauto|].
      rewrite Hp', Hh', !dict_get_set_other by (intros ->; tauto). auto.
Qed.

(** X18. When [fill_missing_params] returns, the dictionary it returns holds
    exactly the parameters it was asked for, [history] holds the same value
    under each of them, and every other key of [history] is as it was. *)
Theorem fill_missing_params_result (rt : PyRuntime)
  tool_name missing history lines params' history' rest :
  fill_missing_params tool_name missing history lines = (Ok (params', history'), rest) ->
  (forall p, In p missing ->
     exists v, dict_get params' p = Some v /\ dict_get history' p = Some v) /\
  (forall k, ~ In k missing ->
     dict_get params' k = None /\ dict_get history' k = dict_get history k).
Proof.
  unfold fill_missing_params. intros Hrun.
  destruct (fill_missing_loop_result _ _ _ _ _ _ _ _ Hrun) as [Hin Hout].
  split; [exact Hin|]. intros k Hk. destruct (Hout k Hk) as [Hp Hh]. auto.
Qed.

Lemma fill_missing_params_result_witness :
  @fill_missing_params ascii_runtime (u "book_ticket_tool") [u "num_seats"] demo_history
    [u "two"; u " 3 "]
  = (Ok ([(u "num_seats", Some (inr 3))],
         [(u "start_station", Some (inl (u "Xian")));
          (u "end_station", Some (inl (u "Shanghai")));
          (u "num_seats", Some (inr 3))]), []) /\
  dict_get demo_history (u "start_station") = Some (Some (inl (u "Xian"))).
Proof.
  assert (Hrun : @fill_missing_params ascii_runtime (u "book_ticket_tool") [u "num_seats"]
                   demo_history [u "two"; u " 3 "]
                 = (Ok ([(u "num_seats", Some (inr 3))],
                        [(u "start_station", Some (inl (u "Xian")));
                         (u "end_station", Some (inl (u "Shanghai")));
                         (u "num_seats", Some (inr 3))]), []))
    by (vm_compute; reflexivity).
  split; [exact Hrun|].
  destruct (fill_missing_params_result ascii_runtime _ _ _ _ _ _ _ Hrun) as [_ Hout].
  destruct (Hout (u "start_station")) as [_ Hh].
  - vm_compute. intros [H|[]]. discriminate.
  - rewrite <- Hh. vm_compute. reflexivity.
Defined.

Lemma fill_missing_loop_int `{PyRuntime} tool_name info param missing :
  dict_get TOOLS_INFO tool_name = Some info ->
  dict_get (let (_, info_params) := info in info_params) param = Some (u "int") ->
  forall params history lines params' history' rest,
    fill_missing_loop tool_name missing params history lines
    = (Ok (params', history'), rest) ->
    (In param missing \/ exists n, dict_get params param = Some (vint n)) ->
    exists n, dict_get params' param = Some (vint n).
Proof.
  intros Hinfo Htype.
  induction missing as [|p0 missing IH];
    intros params history lines params' history' rest Hrun Hp;
    cbn [fill_missing_loop] in Hrun.
  - injection Hrun as <- <- <-. destruct Hp as [[]|Hp]. exact Hp.
  - rewrite Hinfo in Hrun.
    destruct (dict_get (let (_, info_params) := info in info_params) p0)
      as [expected_type|] eqn:Et; [|discriminate].
    destruct (ask_value expected_type _ lines) as [[v|e] r1] eqn:Ea; [|discriminate].
    apply (IH _ _ _ _ _ _ Hrun).
    destruct (pystr_eq_dec p0 param) as [->|Hne].
    + right. rewrite Htype in Et. injection Et as <-.
      destruct (ask_value_int _ _ _ _ Ea) as [n ->].
      exists n. apply dict_get_set_same.
    + destruct Hp as [[Heq|Hin]|[n Hn]]; [contradiction | now left |].
      right. exists n. rewrite dict_get_set_other by congruence. exact Hn.
Qed.

(** X19. A parameter that [TOOLS_INFO] types as "int" and that
    [fill_missing_params] was asked for comes back as an integer: whatever
    is typed, [num_seats] of [book_ticket_tool] is never returned as text. *)
Theorem fill_missing_params_int (rt : PyRuntime)
  tool_name info param missing history lines params' history' rest :
  dict_get TOOLS_INFO tool_name = Some info ->
  dict_get (let (_, info_params) := info in info_params) param = Some (u "int") ->
  In param missing ->
  fill_missing_params tool_name missing history lines = (Ok (params', history'), rest) ->
  exists n, dict_get params' param = Some (vint n).
Proof.
  intros Hinfo Htype Hin Hrun. unfold fill_missing_params in Hrun.
  eapply fill_missing_loop_int; eauto.
Qed.

Lemma fill_missing_params_int_witness :
  exists n,
    dict_get [(u "num_seats", @vint ascii_runtime 3)] (u "num_seats") = Some (@vint ascii_runtime n).
Proof.
  refine (fill_missing_params_int ascii_runtime (u "book_ticket_tool") _ (u "num_seats")
            [u "num_seats"] demo_history [u "two"; u " 3 "] _ _ [] _ _ _ _).
  - vm_compute. reflexivity.
  - vm_compute. reflexivity.
  - left. reflexivity.
  - vm_compute. reflexivity.
Defined.

(** X20. The prompt for an "int" parameter is repeated until a line
    converts: lines on which [int] raises [ValueError] are read and dropped,
    and the first line that converts gives the value; nothing after it is
    read. *)
Theorem ask_value_retries (rt : PyRuntime) default_value rejected line n rest :
  let typed l :=
    if str_eqb (str_strip l) [] && negb (is_none default_value) then default_value
    else vstr (str_strip l) in
  Forall (fun l => py_int (typed l) = Err ValueError) rejected ->
  py_int (typed line) = Ok n ->
  ask_value (u "int") default_value (rejected ++ line :: rest)%list = (Ok (vint n), rest).
Proof.
  intros typed Hrej Hok.
  induction Hrej as [|l rejected Hl _ IH]; cbn [app ask_value];
    replace (str_eqb (u "int") (u "int")) with true by reflexivity.
  - fold (typed line). now rewrite Hok.
  - fold (typed l). rewrite Hl. exact IH.
Qed.

Lemma ask_value_retries_witness :
  @ask_value ascii_runtime (u "int") None [u "two"; u ""; u " 3 "; u "4"]
  = (Ok (Some (inr 3)), [u "4"]).
Proof.
  apply (ask_value_retries ascii_runtime None [u "two"; u ""] (u " 3 ") 3 [u "4"]).
  - repeat constructor.
  - reflexivity.
Defined.

(** ** [select_ollama_model] *)

Lemma choose_model_result `{PyRuntime} models lines :
  forall m rest,
    (fst (choose_model models lines) <> Err IndexError) /\
    (choose_model models lines = (Ok m, rest) -> In m models).
Proof.
  induction lines as [|line lines IH]; intros m rest; cbn [choose_model].
  - split; [discriminate | discriminate].
  - destruct (str_isdigit (str_strip line)); [|apply IH].
    destruct (int_of_str (str_strip line)) as [k|]; [|split; discriminate].
    destruct ((1 <=? k) && (k <=? Z.of_nat (List.length models))) eqn:Ek; [|apply IH].
    apply andb_true_iff in Ek. destruct Ek as [Hlo Hhi].
    apply Z.leb_le in Hlo, Hhi.
    destruct (nth_error models (Z.to_nat (k - 1))) as [m0|] eqn:En.
    + split; [discriminate|]. intros Hr. injection Hr as <- _.
      eapply nth_error_In, En.
    + apply nth_error_None in En. lia.
Qed.

(** X21. [select_ollama_model] raises [RuntimeError] without reading input
    when no model is listed; otherwise the name it returns is one of the
    listed models, and the index computed from the typed number is never out
    of range. *)
Theorem select_ollama_model_result (rt : PyRuntime) models lines :
  (models = [] -> select_ollama_model models lines = (Err RuntimeError, lines)) /\
  fst (select_ollama_model models lines) <> Err IndexError /\
  (forall m rest, select_ollama_model models lines = (Ok m, rest) -> In m models).
Proof.
  unfold select_ollama_model. split; [intros ->; reflexivity|].
  destruct models as [|m0 models]; [split; [discriminate | discriminate]|].
  split.
  - exact (proj1 (choose_model_result (m0 :: models) lines m0 [])).
  - intros m rest. exact (proj2 (choose_model_result (m0 :: models) lines m rest)).
Qed.

Lemma select_ollama_model_result_witness :
  @select_ollama_model ascii_runtime [u "llama2"; u "qwen"] [u "0"; u "x"; u "3"; u " 2 "; u "1"]
  = (Ok (u "qwen"), [u "1"]) /\
  In (u "qwen") [u "llama2"; u "qwen"].
Proof.
  assert (Hrun : @select_ollama_model ascii_runtime [u "llama2"; u "qwen"]
                   [u "0"; u "x"; u "3"; u " 2 "; u "1"] = (Ok (u "qwen"), [u "1"]))
    by (vm_compute; reflexivity).
  split; [exact Hrun|].
  exact (proj2 (proj2 (select_ollama_model_result ascii_runtime _ _)) _ _ Hrun).
Defined.
